(** * GitHub-OpenSource-Analysis: the extraction engine, embedded and verified

    A shallow embedding of [src/github_api.py], [src/data_collection.py] and
    [src/repos_extractor.py].

    - Python values decoded from JSON are the inductive [json]; a dict is a
      [gmap string json].
    - A method that talks to the API, writes a CSV file or logs is a function
      in the monad [M]: it threads a [World] (the requests issued so far, the
      diagnostic log, the files on disk) and ends in a value, a raised
      exception or, for a [while] loop run with too little fuel, [OutOfFuel].
    - The remote API is a parameter [transport]: the HTTP response (after the
      transport-level retries of [_create_retry_session]) to a request, given
      the requests issued before it. A transport that raises instead of
      answering is outside the model.
    - A CSV file is its rows of cells, each cell the text the csv module
      writes for a value; Python's repr, which csv uses for a list or a dict,
      is the parameter [py_repr].
    - Progress bars ([tqdm]) have no effect on requests, files or results and
      are left out. *)

From Stdlib Require Import ZArith String Ascii List Lia Bool.
From stdpp Require Import base gmap strings list option pretty.
Import ListNotations.

#[local] Set Warnings "-register-all".
#[local] Open Scope Z_scope.

(** ** Python strings

    A [str] is modelled as its UTF-8 bytes; [lower] maps the ASCII capitals and
    leaves every other byte alone. *)
Module Py.

Definition lower_ascii (c : ascii) : ascii :=
  let n := N_of_ascii c in
  if ((65 <=? n) && (n <=? 90))%N then ascii_of_N (n + 32) else c.

Fixpoint lower (s : string) : string :=
  match s with
  | EmptyString => EmptyString
  | String c s' => String (lower_ascii c) (lower s')
  end.

(** [s.endswith(suf)] *)
Fixpoint endswith (s suf : string) : bool :=
  if String.eqb s suf then true
  else match s with
       | EmptyString => false
       | String _ s' => endswith s' suf
       end.

(** [s.endswith((suf1, suf2, ...))] *)
Definition endswith_any (s : string) (sufs : list string) : bool :=
  existsb (endswith s) sufs.

(** [s.split(sep)] for a one-character separator: never empty. *)
Fixpoint split (sep : ascii) (s : string) : list string :=
  match s with
  | EmptyString => [EmptyString]
  | String c s' =>
      if Ascii.eqb c sep then EmptyString :: split sep s'
      else match split sep s' with
           | h :: t => String c h :: t
           | [] => [String c EmptyString]
           end
  end.

(** [l[-1]] and [l[-2]]; [None] stands for IndexError. *)
Definition last_item {A} (l : list A) : option A := last l.
Definition second_last_item {A} (l : list A) : option A :=
  match rev l with
  | _ :: x :: _ => Some x
  | _ => None
  end.

(** [sep.join(l)] *)
Fixpoint join (sep : string) (l : list string) : string :=
  match l with
  | [] => EmptyString
  | [x] => x
  | x :: rest => x +:+ sep +:+ join sep rest
  end.

(** The characters of a string, as one-character strings (iterating a [str]). *)
Fixpoint chars (s : string) : list string :=
  match s with
  | EmptyString => []
  | String c s' => String c EmptyString :: chars s'
  end.

(** [urllib.parse.quote(s)] with its default [safe="/"]: letters, digits and
    [_.-~/] are kept, every other byte becomes [%XX]. *)
Definition hex_digit (n : N) : ascii :=
  if (n <? 10)%N then ascii_of_N (48 + n) else ascii_of_N (55 + n).

Definition unreserved (c : ascii) : bool :=
  let n := N_of_ascii c in
  (((48 <=? n) && (n <=? 57)) || ((65 <=? n) && (n <=? 90))
   || ((97 <=? n) && (n <=? 122))
   || (n =? 95) || (n =? 46) || (n =? 45) || (n =? 126) || (n =? 47))%N.

Fixpoint quote (s : string) : string :=
  match s with
  | EmptyString => EmptyString
  | String c s' =>
      if unreserved c then String c (quote s')
      else let n := N_of_ascii c in
           String "%" (String (hex_digit (n / 16)) (String (hex_digit (n mod 16)) (quote s')))
  end.

(** [int(s)] on an optionally signed run of decimal digits; [None] stands for
    ValueError. *)
Fixpoint digits_value (acc : Z) (s : string) : option Z :=
  match s with
  | EmptyString => Some acc
  | String c s' =>
      match Ascii.is_nat c with
      | Some d => digits_value (10 * acc + Z.of_nat d) s'
      | None => None
      end
  end.

Definition parse_int (s : string) : option Z :=
  match s with
  | EmptyString => None
  | String "-" (String c s') => Z.opp <$> digits_value 0 (String c s')
  | String "+" (String c s') => digits_value 0 (String c s')
  | _ => digits_value 0 s
  end.

(** ** Python values *)

(** What [response.json()] can return: [None], a bool, an int, a str, a list
    or a dict with string keys. JSON numbers are integers throughout the API
    contract this program reads. *)
Inductive json :=
| JNull
| JBool (b : bool)
| JNum (z : Z)
| JStr (s : string)
| JArr (l : list json)
| JObj (m : gmap string json).

(** [bool(v)], the test of [if v:] *)
Definition truthy (v : json) : bool :=
  match v with
  | JNull => false
  | JBool b => b
  | JNum z => negb (z =? 0)
  | JStr s => negb (String.eqb s EmptyString)
  | JArr l => match l with [] => false | _ => true end
  | JObj m => negb (bool_decide (m = ∅))
  end.

Definition is_none (v : json) : bool :=
  match v with JNull => true | _ => false end.

(** [v == "literal"] *)
Definition eq_str (v : json) (s : string) : bool :=
  match v with JStr t => String.eqb t s | _ => false end.

Inductive exn :=
| KeyError (k : string)
| TypeError
| ValueError
| AttributeError
| IndexError
| StopIteration
| JSONDecodeError
| FileNotFoundError (path : string).

Inductive outcome (A : Type) :=
| Ok (a : A)
| Raise (e : exn)
| OutOfFuel.
Arguments Ok {A} a.
Arguments Raise {A} e.
Arguments OutOfFuel {A}.

(** [v[k]] for a string key *)
Definition getitem (v : json) (k : string) : outcome json :=
  match v with
  | JObj m => match m !! k with Some x => Ok x | None => Raise (KeyError k) end
  | _ => Raise TypeError
  end.

(** [v.get(k)] and [v.get(k, d)]: only a dict has the method. *)
Definition get_default (v : json) (k : string) (d : json) : outcome json :=
  match v with
  | JObj m => Ok (default d (m !! k))
  | _ => Raise AttributeError
  end.
Definition get (v : json) (k : string) : outcome json := get_default v k JNull.

(** [for x in v]: the elements of a list, the keys of a dict (a [gmap] does
    not record insertion order), the characters of a str. *)
Definition iter (v : json) : outcome (list json) :=
  match v with
  | JArr l => Ok l
  | JObj m => Ok (JStr <$> (map_to_list m).*1)
  | JStr s => Ok (JStr <$> chars s)
  | _ => Raise TypeError
  end.

(** [len(v)] *)
Definition len (v : json) : outcome Z :=
  match v with
  | JArr l => Ok (Z.of_nat (length l))
  | JObj m => Ok (Z.of_nat (size m))
  | JStr s => Ok (Z.of_nat (String.length s))
  | _ => Raise TypeError
  end.

(** An int operand; a bool is an int in Python. *)
Definition as_int (v : json) : outcome Z :=
  match v with
  | JNum z => Ok z
  | JBool b => Ok (if b then 1 else 0)
  | _ => Raise TypeError
  end.

(** The elements of an iterable handed to [str.join]: each must be a str. *)
Fixpoint all_str (l : list json) : option (list string) :=
  match l with
  | [] => Some []
  | JStr s :: rest => cons s <$> all_str rest
  | _ :: _ => None
  end.

(** [sep.join(v)] *)
Definition join_json (sep : string) (v : json) : outcome string :=
  match iter v with
  | Ok l => match all_str l with
            | Some ss => Ok (join sep ss)
            | None => Raise TypeError
            end
  | Raise e => Raise e
  | OutOfFuel => OutOfFuel
  end.

End Py.
Export Py.

(** ** The world a method runs in *)

(** [http.get(url, headers=self.headers, params=params)]: the credential
    header is the same in every call and is left out. *)
Record request := Request {
  url : string;
  params : option (gmap string json)
}.

(** A [requests.Response]: [headers] is case-insensitive and is keyed here by
    the lower-case header name; [body] is what [response.json()] decodes, or
    [None] when the body is not JSON. *)
Record Response := {
  status_code : Z;
  headers : gmap string string;
  body : option json
}.

Inductive level := INFO | WARNING | ERROR.

(** A CSV file as the csv module sees it: rows of cells. *)
Definition csv_file : Type := list (list string).

(** [log] keeps the level and the message template of each record (the
    formatted arguments are left out); the last request, log record or row is
    the last element. *)
Record World := {
  requests : list request;
  log : list (level * string);
  fs : gmap string csv_file
}.

Definition M (A : Type) : Type := World → outcome A * World.

#[global] Instance M_ret : MRet M := λ A a w, (Ok a, w).
#[global] Instance M_bind : MBind M := λ A B f m w,
  match m w with
  | (Ok a, w') => f a w'
  | (Raise e, w') => (Raise e, w')
  | (OutOfFuel, w') => (OutOfFuel, w')
  end.

Definition raise {A} (e : exn) : M A := λ w, (Raise e, w).
Definition out_of_fuel {A} : M A := λ w, (OutOfFuel, w).

(** A pure computation that may raise, run inside [M]. *)
Definition lift {A} (o : outcome A) : M A := λ w, (o, w).

Definition logger (lvl : level) (msg : string) : M unit := λ w,
  (Ok tt, {| requests := requests w; log := log w ++ [(lvl, msg)]; fs := fs w |}).

Definition send (req : request) : M unit := λ w,
  (Ok tt, {| requests := requests w ++ [req]; log := log w; fs := fs w |}).

Definition history : M (list request) := λ w, (Ok (requests w), w).

(** [open(path, "w")]: the file is created or truncated. *)
Definition open_w (path : string) : M unit := λ w,
  (Ok tt, {| requests := requests w; log := log w; fs := <[path := []]> (fs w) |}).

(** [open(path, "r")] and the rows of the file. *)
Definition open_r (path : string) : M csv_file := λ w,
  match fs w !! path with
  | Some f => (Ok f, w)
  | None => (Raise (FileNotFoundError path), w)
  end.

(** One more row at the end of the file. *)
Definition write_row (path : string) (row : list string) : M unit := λ w,
  (Ok tt, {| requests := requests w; log := log w;
             fs := <[path := default [] (fs w !! path) ++ [row]]> (fs w) |}).

(** ** [src/github_api.py] *)
Module GitHubAPI.
Section api.
(** The response to a request, given the requests issued before it. *)
Variable transport : list request → request → Response.

Definition _handle_api_errors (response : Response) : M json :=
  if status_code response =? 200 then
    match body response with
    | Some payload => mret payload
    | None => raise JSONDecodeError
    end
  else if status_code response =? 403 then
    match headers response !! lower "X-RateLimit-Reset" with
    | None => raise (KeyError "X-RateLimit-Reset")
    | Some reset =>
        match parse_int reset with
        | None => raise ValueError
        | Some _ =>
            logger WARNING
              "Rate limit exceeded! Please wait and try again after :%s minutes.";;
            mret JNull
        end
    end
  else if status_code response =? 404 then
    logger ERROR "Error 404: Resource not found.";; mret JNull
  else if status_code response =? 451 then
    logger ERROR "Error %s Unavailable For Legal Reasons.";; mret JNull
  else if status_code response =? 401 then
    logger ERROR "Unauthorized (401) - Check your GitHub token.";; mret JNull
  else if status_code response =? 204 then
    logger INFO "HTTP 204 - No Content. This could be expected, but investigate.";;
    mret JNull
  else if status_code response =? 409 then
    logger ERROR
      "HTTP 409 - Conflict. This often means a resource exists but should not or already has an operation running on it.";;
    mret JNull
  else
    logger ERROR "Error fetching data: %s";; mret JNull.

Definition _get (u : string) (ps : option (gmap string json)) : M json :=
  let req := Request u ps in
  past ← history;
  send req;;
  _handle_api_errors (transport past req).
End api.
End GitHubAPI.

#[global] Instance outcome_ret : MRet outcome := λ A a, Ok a.
#[global] Instance outcome_bind : MBind outcome := λ A B f o,
  match o with
  | Ok a => f a
  | Raise e => Raise e
  | OutOfFuel => OutOfFuel
  end.

(** ** [src/data_collection.py] *)
Module DataCollection.
Import GitHubAPI.

Definition EGY_USERS_COLS : list string := ["login"; "url"].
Definition REPO_COLS : list string :=
  ["login"; "repo_name"; "repo_html_url"; "language"; "topics";
   "repo_description"; "open_issues_count"; "forks_count";
   "stargazers_count"; "last_repo_commit_date"; "license"].

Definition per_page : Z := 100.

(** [csv.DictReader]: the first row names the columns; an empty row is
    skipped; a short row is filled with [None]; cells beyond the header are
    kept under the key [None], out of reach of a string key. *)
Definition row_dict (fieldnames row : list string) : gmap string json :=
  list_to_map
    (reverse (zip fieldnames
                  ((JStr <$> row) ++ replicate (length fieldnames - length row) JNull))).

Definition dict_reader (f : csv_file) : list (gmap string json) :=
  match f with
  | [] => []
  | fieldnames :: rows =>
      row_dict fieldnames <$> filter (λ r, r ≠ []) rows
  end.

(** [s + "/repos"] for a cell of the reader: a str, or [None] when the row was
    short. *)
Definition concat_str (v : json) (s : string) : outcome string :=
  match v with
  | JStr t => Ok (t +:+ s)
  | _ => Raise TypeError
  end.

(** [sub in s] for two strs. *)
Fixpoint contains (sub s : string) : bool :=
  if String.prefix sub s then true
  else match s with
       | EmptyString => false
       | String _ s' => contains sub s'
       end.

(** The API URL of the repository named by the last two components of
    [row['repo_html_url']], as [filter_per_cont_loc] builds it. *)
Definition repo_api_url (row : gmap string json) : outcome string :=
  html ← getitem (JObj row) "repo_html_url";
  match html with
  | JStr s =>
      let parts := split "/" s in
      match second_last_item parts, last_item parts with
      | Some repo_owner, Some repo_name =>
          Ok ("https://api.github.com/repos/" +:+ repo_owner +:+ "/" +:+ repo_name)
      | _, _ => Raise IndexError
      end
  | _ => Raise AttributeError
  end.

(** [location and 'egypt' in location.lower()]: the test of the [if], as a
    bool. *)
Definition in_egypt (location : json) : outcome bool :=
  if truthy location then
    match location with
    | JStr s => Ok (contains "egypt" (lower s))
    | _ => Raise AttributeError
    end
  else Ok false.

Section collector.
Variable transport : list request → request → Response.
(** Python's [str] of a list or dict cell (its repr), which the csv module
    writes for a cell that is neither [None], a str nor a number. *)
Variable py_repr : json → string.

Definition csv_text (v : json) : string :=
  match v with
  | JNull => ""
  | JStr s => s
  | JNum z => pretty z
  | JBool true => "True"
  | JBool false => "False"
  | _ => py_repr v
  end.

(** [DictWriter.writerow(rowdict)] with the default [extrasaction="raise"]
    and [restval=""]. *)
Definition writerow (path : string) (fieldnames : list string)
    (rowdict : gmap string json) : M unit :=
  if bool_decide (map_Forall (λ k _, k ∈ fieldnames) rowdict) then
    write_row path ((λ k, from_option csv_text "" (rowdict !! k)) <$> fieldnames)
  else raise ValueError.

Definition writeheader (path : string) (fieldnames : list string) : M unit :=
  write_row path fieldnames.

(** *** [scrap_egy_contributors] *)

Definition users_end_point : string := "https://api.github.com/search/users".

Definition users_params (start_page : Z) : gmap string json :=
  <["q" := JStr "location:egypt"]>
    (<["sort" := JStr "stars"]>
       (<["order" := JStr "desc"]>
          (<["per_page" := JNum per_page]>
             (<["page" := JNum start_page]> ∅)))).

(** [{k: v for k, v in item.items() if k in writer.fieldnames}] *)
Definition project (fieldnames : list string) (item : json) : outcome (gmap string json) :=
  match item with
  | JObj m => Ok (filter (λ kv, kv.1 ∈ fieldnames) m)
  | _ => Raise AttributeError
  end.

(** The [for item in tqdm(response["items"], ...)] loop. *)
Fixpoint write_users (path : string) (items : list json) : M unit :=
  match items with
  | [] => mret tt
  | item :: rest =>
      rowdict ← lift (project EGY_USERS_COLS item);
      writerow path EGY_USERS_COLS rowdict;;
      write_users path rest
  end.

(** The [while True] loop; [ps] is the dict [params], updated in place. *)
Fixpoint users_loop (fuel : nat) (path : string) (ps : gmap string json)
    (page : Z) : M unit :=
  match fuel with
  | O => out_of_fuel
  | S fuel' =>
      let ps := <["page" := JNum page]> ps in
      response ← _get transport users_end_point (Some ps);
      if truthy response then
        total_count ← lift (getitem response "total_count");
        logger INFO "Total contributors Found: {total_count}";;
        items ← lift (getitem response "items" ≫= iter);
        write_users path items;;
        logger INFO "Scraping page number {page}";;
        let page := page + 1 in
        (* params["per_page"] is the literal 100 of [users_params] *)
        max_page ← lift (tc ← as_int total_count; Ok (tc `div` per_page + 1));
        if page >? max_page then logger INFO "You Finshed all the pages!"
        else users_loop fuel' path ps page
      else mret tt
  end.

Definition scrap_egy_contributors (fuel : nat) (users_file_path : string)
    (start_page : Z) : M unit :=
  let ps := users_params start_page in
  open_w users_file_path;;
  writeheader users_file_path EGY_USERS_COLS;;
  users_loop fuel users_file_path ps start_page.

(** *** [scrap_repos_file] *)

(** The dict literal [repo_json], its values evaluated in the order they
    are written. *)
Definition repo_json (row : gmap string json) (repo : json) : outcome (gmap string json) :=
  login ← getitem (JObj row) "login";
  name ← getitem repo "name";
  html_url ← getitem repo "html_url";
  description ← getitem repo "description";
  language ← getitem repo "language";
  language ← (if eq_str language "Jupyter Notebook" then Ok (JStr "Python")
              else getitem repo "language");
  topics ← getitem repo "topics" ≫= join_json ", ";
  stargazers_count ← getitem repo "stargazers_count";
  forks_count ← getitem repo "forks_count";
  open_issues_count ← getitem repo "open_issues_count";
  updated_at ← getitem repo "updated_at";
  license ← match repo with
            | JObj m =>
                match m !! "license" with
                | Some lic => if truthy lic then getitem lic "name" else Ok JNull
                | None => Ok JNull
                end
            | _ => Raise TypeError
            end;
  Ok (<["login" := login]>
     (<["repo_name" := name]>
     (<["repo_html_url" := html_url]>
     (<["repo_description" := description]>
     (<["language" := language]>
     (<["topics" := JStr topics]>
     (<["stargazers_count" := stargazers_count]>
     (<["forks_count" := forks_count]>
     (<["open_issues_count" := open_issues_count]>
     (<["last_repo_commit_date" := updated_at]>
     (<["license" := license]> ∅))))))))))).

(** The [for repo in repos_response] loop. *)
Fixpoint write_user_repos (path : string) (row : gmap string json)
    (repos : list json) : M unit :=
  match repos with
  | [] => mret tt
  | repo :: rest =>
      rowdict ← lift (repo_json row repo);
      writerow path REPO_COLS rowdict;;
      logger INFO "scraped all `{row['login']}` repos";;
      write_user_repos path row rest
  end.

(** The [for i, row in enumerate(reader)] loop. *)
Fixpoint users_rows_loop (path : string) (i : Z) (rows : list (gmap string json))
    : M unit :=
  match rows with
  | [] => mret tt
  | row :: rest =>
      repo_url ← lift (u ← getitem (JObj row) "url"; concat_str u "/repos");
      repos_response ← _get transport repo_url None;
      if negb (is_none repos_response) then
        repos ← lift (iter repos_response);
        write_user_repos path row repos;;
        if i =? 50000 then mret tt
        else users_rows_loop path (i + 1) rest
      else
        _ ← lift (getitem (JObj row) "login");
        logger INFO "No repos for {row['login']}`";;
        users_rows_loop path (i + 1) rest
  end.

(** [for _ in range(from_row - 1): next(reader)] under [if from_row:]. *)
Definition skip_rows (from_row : option Z) (rows : list (gmap string json))
    : outcome (list (gmap string json)) :=
  match from_row with
  | None => Ok rows
  | Some n =>
      if n =? 0 then Ok rows
      else if (Z.to_nat (n - 1) <=? length rows)%nat then Ok (drop (Z.to_nat (n - 1)) rows)
      else Raise StopIteration
  end.

(** The reader is handed its rows when the users file is opened, which is
    what the lazy [csv.DictReader] yields as long as the two paths name
    different files. *)
Definition scrap_repos_file (users_file_path repos_file_path : string)
    (from_row : option Z) : M unit :=
  users_file ← open_r users_file_path;
  let reader := dict_reader users_file in
  reader ← lift (skip_rows from_row reader);
  open_w repos_file_path;;
  writeheader repos_file_path REPO_COLS;;
  users_rows_loop repos_file_path 0 reader.

(** *** [scrap_non_egy_repos] *)

Definition repos_end_point : string := "https://api.github.com/search/repositories".

Definition repos_params (start_page : Z) : gmap string json :=
  <["q" := JStr "stars:>=1000"]>
    (<["sort" := JStr "stars"]>
       (<["order" := JStr "desc"]>
          (<["per_page" := JNum per_page]>
             (<["page" := JNum start_page]> ∅)))).

(** The dict literal [repo_data]. *)
Definition repo_data (item : json) : outcome (gmap string json) :=
  owner ← getitem item "owner" ≫= (λ o, getitem o "login");
  name ← getitem item "name";
  html_url ← getitem item "html_url";
  language ← get item "language";
  topics ← get_default item "topics" (JArr []) ≫= join_json ", ";
  description ← get item "description";
  open_issues_count ← get item "open_issues_count";
  forks_count ← get item "forks_count";
  stargazers_count ← get item "stargazers_count";
  updated_at ← get item "updated_at";
  lic ← get item "license";
  license ← (if truthy lic
             then get_default item "license" (JObj ∅) ≫= (λ l, get l "name")
             else Ok JNull);
  Ok (<["login" := owner]>
     (<["repo_name" := name]>
     (<["repo_html_url" := html_url]>
     (<["language" := language]>
     (<["topics" := JStr topics]>
     (<["repo_description" := description]>
     (<["open_issues_count" := open_issues_count]>
     (<["forks_count" := forks_count]>
     (<["stargazers_count" := stargazers_count]>
     (<["last_repo_commit_date" := updated_at]>
     (<["license" := license]> ∅))))))))))).

(** The [for item in response["items"]] loop with its [break]; the result
    is [repos_scraped] when the loop is left. *)
Fixpoint write_repos (path : string) (items : list json)
    (repos_scraped total_count : Z) : M Z :=
  match items with
  | [] => mret repos_scraped
  | item :: rest =>
      rowdict ← lift (repo_data item);
      writerow path REPO_COLS rowdict;;
      let repos_scraped := repos_scraped + 1 in
      if repos_scraped >=? total_count then mret repos_scraped
      else write_repos path rest repos_scraped total_count
  end.

(** The [while repos_scraped < total_count] loop. [page] is counted up at
    the end of each round, but the request is built from [ps], the dict
    [params], which the loop never updates. *)
Fixpoint repos_loop (fuel : nat) (path : string) (ps : gmap string json)
    (page repos_scraped total_count : Z) : M unit :=
  if repos_scraped <? total_count then
    match fuel with
    | O => out_of_fuel
    | S fuel' =>
        response ← _get transport repos_end_point (Some ps);
        if truthy response then
          _ ← lift (getitem response "total_count");
          logger INFO "Total repositories Found: {response['total_count']}";;
          items ← lift (getitem response "items" ≫= iter);
          repos_scraped ← write_repos path items repos_scraped total_count;
          logger INFO "Scraping page number {page}";;
          let page := page + 1 in
          repos_loop fuel' path ps page repos_scraped total_count
        else mret tt
    end
  else mret tt.

Definition scrap_non_egy_repos (fuel : nat) (top_non_egy_file_path : string)
    (start_page total_count : Z) : M unit :=
  let ps := repos_params start_page in
  open_w top_non_egy_file_path;;
  writeheader top_non_egy_file_path REPO_COLS;;
  let page := start_page in
  let repos_scraped := 0 in
  let total_pages := total_count `div` per_page + 1 in
  repos_loop fuel top_non_egy_file_path ps page repos_scraped total_count.

(** *** [filter_per_cont_loc] *)

(** [f"{v}"]: the str of a value inside an f-string. *)
Definition py_str (v : json) : string :=
  match v with
  | JNull => "None"
  | JStr s => s
  | JNum z => pretty z
  | JBool true => "True"
  | JBool false => "False"
  | _ => py_repr v
  end.

(** The [for cont in contributors] loop; the result is
    [egyptian_contributors]. The profile of each contributor is fetched and
    read with [.get], which [None] does not have; the log line of a match
    reads [cont['repo_html_url']]. *)
Fixpoint egyptian_contributors (contributors : list json) : M (list json) :=
  match contributors with
  | [] => mret []
  | cont :: rest =>
      user_name ← lift (getitem cont "login");
      let repo_url := "https://api.github.com/users/" +:+ py_str user_name in
      cont_prof ← _get transport repo_url None;
      location ← lift (get_default cont_prof "location" (JStr ""));
      egy ← lift (in_egypt location);
      if egy : bool then
        _ ← lift (getitem cont "repo_html_url");
        logger INFO "Find {user_name} contributes in {cont['repo_html_url']}";;
        more ← egyptian_contributors rest;
        mret (user_name :: more)
      else egyptian_contributors rest
  end.

Definition filter_per_cont_loc (row : gmap string json) : M json :=
  repo_url ← lift (repo_api_url row);
  let contributors_url := repo_url +:+ "/contributors" in
  contributors ← _get transport contributors_url None;
  if truthy contributors then
    conts ← lift (iter contributors);
    found ← egyptian_contributors conts;
    mret (JArr found)
  else mret JNull.

End collector.
End DataCollection.

(** ** [src/repos_extractor.py] *)
Module RepoExtractor.
Import GitHubAPI.

(** The two attributes of an extractor that its methods read. *)
Record extractor := {
  row : gmap string json;
  base_url : string
}.

(** [__init__]: the API root of the repository named by the last two
    components of [row['repo_html_url']]. *)
Definition init (r : gmap string json) : outcome extractor :=
  html ← getitem (JObj r) "repo_html_url";
  match html with
  | JStr s =>
      let parts := split "/" s in
      match second_last_item parts, last_item parts with
      | Some repo_owner, Some repo_name =>
          Ok {| row := r;
                base_url := "https://api.github.com/repos/" +:+ repo_owner +:+ "/" +:+ repo_name |}
      | _, _ => Raise IndexError
      end
  | _ => Raise AttributeError
  end.

Definition excluded_extensions : list string := [".pyc"; ".png"; ".jpg"; ".jpeg"; ".gif"].
Definition excluded_dirs : list string := ["images"; "imgs"; "__pycache__"].

(** [item["name"].lower()] *)
Definition lower_name (item : json) : outcome string :=
  name ← getitem item "name";
  match name with
  | JStr s => Ok (lower s)
  | _ => Raise AttributeError
  end.

(** The test of the [if]: [item["type"] == "file" and not
    item["name"].lower().endswith((...))]. *)
Definition is_wanted_file (item : json) : outcome bool :=
  ty ← getitem item "type";
  if eq_str ty "file" then
    n ← lower_name item; Ok (negb (endswith_any n excluded_extensions))
  else Ok false.

(** The test of the [elif]: [item["type"] == "dir" and
    item["name"].lower() not in [...]]. *)
Definition is_wanted_dir (item : json) : outcome bool :=
  ty ← getitem item "type";
  if eq_str ty "dir" then
    n ← lower_name item; Ok (negb (bool_decide (n ∈ excluded_dirs)))
  else Ok false.

(** [urllib.parse.quote(directory)] *)
Definition quote_json (directory : json) : outcome string :=
  match directory with
  | JStr d => Ok (quote d)
  | _ => Raise TypeError
  end.

(** [sum(1 for x in data if test(x))] *)
Fixpoint count_where (test : json → outcome bool) (data : list json) : outcome Z :=
  match data with
  | [] => Ok 0
  | x :: rest =>
      b ← test x;
      n ← count_where test rest;
      Ok (if b : bool then 1 + n else n)
  end.

(** [[f(x) for x in data]] *)
Fixpoint map_outcome {A B} (f : A → outcome B) (data : list A) : outcome (list B) :=
  match data with
  | [] => Ok []
  | x :: rest => y ← f x; ys ← map_outcome f rest; Ok (y :: ys)
  end.

(** [pkg.split(':')[-1]] *)
Definition after_last_colon (s : string) : string :=
  default EmptyString (last_item (split ":" s)).

Definition split_name (pkg : json) : outcome json :=
  match pkg with
  | JStr s => Ok (JStr (after_last_colon s))
  | _ => Raise AttributeError
  end.

(** The body of [_get_dependencies] once [data] is known to be truthy:
    [packages], [packages_names] and the returned [packages_names[1:]]. *)
Definition dependencies_of (data : json) : outcome json :=
  sbom ← getitem data "sbom";
  pkgs ← getitem sbom "packages" ≫= iter;
  packages ← map_outcome (λ package, getitem package "name") pkgs;
  packages_names ← map_outcome split_name packages;
  Ok (JArr (tail packages_names)).

(** The chain of comparisons in the body of the loop of [_get_ci_cd_tool],
    for one file name; every branch returns. *)
Definition ci_cd_of (filename : string) : json :=
  if String.eqb (lower filename) ".travis.yml" then JStr "Travis CI"
  else if String.eqb (lower filename) ".gitlab-ci.yml" then JStr "GitLab CI"
  else if String.eqb (lower filename) ".drone.yml" then JStr "Drone CI"
  else if String.eqb (lower filename) ".circleci/config.yml" then JStr "CircleCI"
  else if String.eqb (lower filename) ".github/workflows" then JStr "GitHub Actions"
  else if String.eqb (lower filename) "Jenkinsfile" then JStr "Jenkins"
  else JNull.

(** [_get_ci_cd_tool]: the [for] loop returns in its first round, whatever
    the file name; an empty list falls through to the implicit [None]. *)
Definition _get_ci_cd_tool (r : gmap string json) : outcome json :=
  filenames ← getitem (JObj r) "filenames" ≫= iter;
  match filenames with
  | [] => Ok JNull
  | JStr filename :: _ => Ok (ci_cd_of filename)
  | _ :: _ => Raise AttributeError
  end.

Section extractor.
Variable transport : list request → request → Response.
Variable self : extractor.

(** The [for item in data] loop of the generator [_fetch_recursive];
    [recurse] is the generator itself, one level further down. A wanted
    file yields its path, a wanted directory yields what the walk below it
    yields, anything else is skipped. *)
Fixpoint each_item (recurse : json → M (list json)) (items : list json)
    : M (list json) :=
  match items with
  | [] => mret []
  | item :: rest =>
      file ← lift (is_wanted_file item);
      if file : bool then
        path ← lift (getitem item "path");
        more ← each_item recurse rest;
        mret (path :: more)
      else
        dir ← lift (is_wanted_dir item);
        if dir : bool then
          path ← lift (getitem item "path");
          below ← recurse path;
          more ← each_item recurse rest;
          mret (below ++ more)
        else each_item recurse rest
  end.

Definition contents_url (directory : string) : string :=
  base_url self +:+ "/contents/" +:+ directory.

(** The generator [_fetch_recursive], run to its end: the paths it yields,
    in order. One unit of fuel is one level of directory nesting. *)
Fixpoint _fetch_recursive (fuel : nat) (directory : json) : M (list json) :=
  match fuel with
  | O => out_of_fuel
  | S fuel' =>
      directory ← lift (quote_json directory);
      data ← _get transport (contents_url directory) None;
      if truthy data then
        items ← lift (iter data);
        each_item (_fetch_recursive fuel') items
      else
        logger WARNING "Failed to retrieve content for directory: {directory}";;
        mret []
  end.

Definition _get_filenames (fuel : nat) : M json :=
  paths ← _fetch_recursive fuel (JStr "");
  mret (JArr paths).

Definition state_all : option (gmap string json) := Some {["state" := JStr "all"]}.

Definition _get_contributors_count : M json :=
  let contributors_url := base_url self +:+ "/contributors" in
  data ← _get transport contributors_url None;
  if truthy data then
    n ← lift (len data);
    logger INFO "Contributor count: {len(data)}";;
    mret (JNum n)
  else mret JNull.

Definition _get_commits_count : M json :=
  let commits_url := base_url self +:+ "/commits" in
  data ← _get transport commits_url None;
  if truthy data then
    n ← lift (len data);
    logger INFO "Commit count: {len(data)}";;
    mret (JNum n)
  else mret (JNum 0).

Definition state_is (s : string) (x : json) : outcome bool :=
  st ← getitem x "state"; Ok (eq_str st s).

Definition _get_issues_count : M json :=
  let issues_url := base_url self +:+ "/issues" in
  data ← _get transport issues_url state_all;
  if truthy data then
    issues ← lift (iter data);
    open_count ← lift (count_where (state_is "open") issues);
    closed_count ← lift (count_where (state_is "closed") issues);
    logger INFO "Issue counts: open - {open_count}, closed - {closed_count}";;
    mret (JObj (<["open" := JNum open_count]> (<["closed" := JNum closed_count]> ∅)))
  else mret JNull.

Definition _get_pull_requests_count : M json :=
  let pulls_url := base_url self +:+ "/pulls" in
  data ← _get transport pulls_url state_all;
  if truthy data then
    pulls ← lift (iter data);
    open_count ← lift (count_where (state_is "open") pulls);
    closed_count ← lift (count_where (state_is "closed") pulls);
    merged_count ← lift (count_where
                           (λ pr, m ← getitem pr "merged_at"; Ok (negb (is_none m))) pulls);
    logger INFO
      "Pull request counts: open - {open_count},closed - {closed_count}, merged - {merged_count}";;
    mret (JObj (<["open" := JNum open_count]>
               (<["closed" := JNum closed_count]>
               (<["merged" := JNum merged_count]> ∅))))
  else mret JNull.

Definition _get_tags : M json :=
  let tags_url := base_url self +:+ "/tags" in
  data ← _get transport tags_url None;
  if truthy data then
    tags ← lift (l ← iter data; map_outcome (λ tag, getitem tag "name") l);
    logger INFO "Tags: {tags}";;
    mret (JArr tags)
  else mret JNull.

Definition _get_dependencies : M json :=
  let dependencies_url := base_url self +:+ "/dependency-graph/sbom" in
  data ← _get transport dependencies_url None;
  if truthy data then
    dependencies ← lift (dependencies_of data);
    logger INFO "Packages: {packages_names}";;
    mret dependencies
  else mret JNull.

(** [self.row['contributor_count'] is not None and
    self.row['contributor_count'] > 1] *)
Definition included (count : json) : outcome bool :=
  if is_none count then Ok false
  else n ← as_int count; Ok (n >? 1).

(** [process_repo]: the dict [self.row] is updated key by key and returned. *)
Definition process_repo (fuel : nat) : M (gmap string json) :=
  count ← _get_contributors_count;
  let r := <["contributor_count" := count]> (row self) in
  go ← lift (c ← getitem (JObj r) "contributor_count"; included c);
  if go : bool then
    filenames ← _get_filenames fuel;
    let r := <["filenames" := filenames]> r in
    commits_count ← _get_commits_count;
    let r := <["commits_count" := commits_count]> r in
    issues_count ← _get_issues_count;
    let r := <["issues_count" := issues_count]> r in
    pull_requests_count ← _get_pull_requests_count;
    let r := <["pull_requests_count" := pull_requests_count]> r in
    tags ← _get_tags;
    let r := <["tags" := tags]> r in
    dependencies ← _get_dependencies;
    let r := <["dependencies" := dependencies]> r in
    ci_cd_tool ← lift (_get_ci_cd_tool r);
    let r := <["ci_cd_tool" := ci_cd_tool]> r in
    logger INFO "\n{self.row}";;
    mret r
  else
    logger INFO "Excluded based on out criteria";;
    mret r.

End extractor.
End RepoExtractor.

(** ** A simulated API

    Test doubles: a search endpoint that serves a fixed list of items in pages,
    without failures, and a repository given as a table of responses. *)
Module Sim.

Definition param (req : request) (k : string) (d : Z) : Z :=
  match params req with
  | Some ps => match ps !! k with Some (JNum z) => z | _ => d end
  | None => d
  end.

Definition ok_response (payload : json) : Response :=
  {| status_code := 200; headers := ∅; body := Some payload |}.

Definition status_response (code : Z) : Response :=
  {| status_code := code; headers := ∅; body := None |}.

(** Page [p] (from 1) of [items], [per_page] items to a page, with the total
    count in every page. *)
Definition page_items (items : list json) (per_page p : Z) : list json :=
  take (Z.to_nat per_page) (drop (Z.to_nat ((p - 1) * per_page)) items).

Definition search_payload (items : list json) (per_page p : Z) : json :=
  JObj (<["total_count" := JNum (Z.of_nat (length items))]>
       (<["items" := JArr (page_items items per_page p)]> ∅)).

Definition search_api (items : list json) : list request → request → Response :=
  λ _ req, ok_response (search_payload items (param req "per_page" 30) (param req "page" 1)).

(** A server that answers from a table of URLs, and 404 elsewhere. *)
Definition table_api (table : list (string * json)) : list request → request → Response :=
  λ _ req,
    match (list_to_map table : gmap string json) !! url req with
    | Some payload => ok_response payload
    | None => status_response 404
    end.

Definition user_item (n : nat) : json :=
  JObj (<["login" := JStr ("user" +:+ pretty n)]>
       (<["url" := JStr ("https://api.github.com/users/user" +:+ pretty n)]>
       (<["id" := JNum (Z.of_nat n)]> ∅))).

Definition repo_item (n : nat) : json :=
  JObj (<["name" := JStr ("repo" +:+ pretty n)]>
       (<["owner" := JObj (<["login" := JStr ("owner" +:+ pretty n)]> ∅)]>
       (<["html_url" := JStr ("https://github.com/owner/repo" +:+ pretty n)]>
       (<["language" := JStr "Python"]>
       (<["topics" := JArr [JStr "a"; JStr "b"]]> ∅))))).

(** Stands for Python's repr in runs that write no list or dict cell. *)
Definition no_repr : json → string := λ _, "".

Definition empty_world : World := {| requests := []; log := []; fs := ∅ |}.

(** The [page] parameter of each request issued, in order. *)
Definition pages (w : World) : list Z := (λ req, param req "page" 0) <$> requests w.

Definition rows_written (path : string) (w : World) : option nat :=
  (λ f, Nat.pred (length f)) <$> fs w !! path.

End Sim.

(** ** Vocabulary of the statements *)

(** The world [w] with [old] as the content of the file at [path]. *)
Definition with_file (path : string) (old : csv_file) (w : World) : World :=
  {| requests := requests w; log := log w; fs := <[path := old]> (fs w) |}.

(** The world [w] once [req] has been issued. *)
Definition sent (req : request) (w : World) : World :=
  {| requests := requests w ++ [req]; log := log w; fs := fs w |}.

(** A response the handler can read: a 200 carries a JSON body, a 403 carries
    an integer [X-RateLimit-Reset] header. *)
Definition readable (r : Response) : Prop :=
  (status_code r = 200 → is_Some (body r)) ∧
  (status_code r = 403 →
   ∃ reset z, headers r !! "x-ratelimit-reset" = Some reset ∧ parse_int reset = Some z).

(** [item] is an element of a listing that the API has served, with status
    200, to one of the requests issued so far. *)
Definition served (transport : list request → request → Response) (w : World)
    (item : json) : Prop :=
  ∃ past req rest data items,
    requests w = past ++ req :: rest
    ∧ status_code (transport past req) = 200
    ∧ body (transport past req) = Some data
    ∧ iter data = Ok items
    ∧ item ∈ items.

(** A child of type file whose lower-case name ends with no excluded
    extension. *)
Definition kept_file (item : json) : Prop :=
  ∃ name, getitem item "type" = Ok (JStr "file")
          ∧ getitem item "name" = Ok (JStr name)
          ∧ ∀ ext, ext ∈ RepoExtractor.excluded_extensions →
                   ¬ ∃ pre, lower name = pre +:+ ext.

(** A child of type dir whose lower-case name is not an excluded one. *)
Definition entered_dir (item : json) : Prop :=
  ∃ name, getitem item "type" = Ok (JStr "dir")
          ∧ getitem item "name" = Ok (JStr name)
          ∧ lower name ∉ RepoExtractor.excluded_dirs.

(** The request that lists [directory]. *)
Definition listing_of (self : RepoExtractor.extractor) (directory : json) (req : request)
    : Prop :=
  ∃ q, RepoExtractor.quote_json directory = Ok q
       ∧ req = Request (RepoExtractor.contents_url self q) None.

(** What the walker may yield and which requests it may issue, judged in the
    world [w'] it leaves: a yielded path is the path of a served file child
    that passes the extension filter, and a directory listed below the
    starting one is the path of a served directory child that passes the name
    filter. *)
Definition yield_ok (transport : list request → request → Response) (w' : World)
    (p : json) : Prop :=
  ∃ item, served transport w' item ∧ kept_file item ∧ getitem item "path" = Ok p.

Definition descent_ok (transport : list request → request → Response)
    (self : RepoExtractor.extractor) (w' : World) (req : request) : Prop :=
  ∃ item p, served transport w' item ∧ entered_dir item
            ∧ getitem item "path" = Ok p ∧ listing_of self p req.

Definition items_ok (transport : list request → request → Response)
    (self : RepoExtractor.extractor) (w : World) (res : outcome (list json))
    (w' : World) : Prop :=
  (∀ paths, res = Ok paths → Forall (yield_ok transport w') paths)
  ∧ ∃ new, requests w' = requests w ++ new
           ∧ Forall (descent_ok transport self w') new.

Definition walk_ok (transport : list request → request → Response)
    (self : RepoExtractor.extractor) (d : json) (w : World)
    (res : outcome (list json)) (w' : World) : Prop :=
  (∀ paths, res = Ok paths → Forall (yield_ok transport w') paths)
  ∧ ∃ new, requests w' = requests w ++ new
           ∧ Forall (λ req, listing_of self d req ∨ descent_ok transport self w' req) new.

(** A computation respects the relation [R] between the world it starts in
    and the world it leaves, whatever its outcome. *)
Definition respects {A} (R : World → World → Prop) (m : M A) : Prop :=
  ∀ w, R w (m w).2.

Definition same_requests (w w' : World) : Prop := requests w' = requests w.

Definition same_files (w w' : World) : Prop := fs w' = fs w.

(** The file at [path], once there, only grows at its end. *)
Definition appends (path : string) (w w' : World) : Prop :=
  ∀ f, fs w !! path = Some f → ∃ rows, fs w' !! path = Some (f ++ rows).

(** [k] page numbers counting up from [page]. *)
Definition consecutive (page : Z) (k : nat) : list Z :=
  (λ i, page + Z.of_nat i) <$> seq 0 k.

(** The row that [csv.DictWriter] writes for [rowdict]. *)
Definition cells (py_repr : json → string) (fieldnames : list string)
    (rowdict : gmap string json) : list string :=
  (λ k, from_option (DataCollection.csv_text py_repr) "" (rowdict !! k)) <$> fieldnames.

(** The world [w] with one more row in the file at [path]. *)
Definition appended (path : string) (row : list string) (w : World) : World :=
  {| requests := requests w; log := log w;
     fs := <[path := default [] (fs w !! path) ++ [row]]> (fs w) |}.

(** Every run of [m] issues requests whose page numbers, in order, satisfy
    [P]. *)
Definition issues {A} (P : list Z → Prop) (m : M A) : Prop :=
  ∀ w, ∃ new, Sim.pages (m w).2 = Sim.pages w ++ new ∧ P new.

(** A JSON object, and its fields. *)
Definition is_obj (item : json) : Prop := ∃ m, item = JObj m.

Definition fields (item : json) : gmap string json :=
  match item with JObj m => m | _ => ∅ end.

(** The row of the users file for an item of the user search. *)
Definition user_row (py_repr : json → string) (item : json) : list string :=
  cells py_repr DataCollection.EGY_USERS_COLS (fields item).

(** An item of the repository search from which [repo_data] can be built, and
    its row. *)
Definition repo_ok (item : json) : Prop := ∃ d, DataCollection.repo_data item = Ok d.

Definition repo_row (py_repr : json → string) (item : json) : list string :=
  match DataCollection.repo_data item with
  | Ok d => cells py_repr DataCollection.REPO_COLS d
  | _ => []
  end.

(** The last page the user search asks for: [total_count // 100 + 1]. *)
Definition last_page (items : list json) : Z :=
  Z.of_nat (length items) `div` DataCollection.per_page + 1.

(** [ceil(a / b)] for a positive [b]. *)
Definition ceil_div (a b : Z) : Z := (a + b - 1) `div` b.

(** Columns of the repository search, each with the payload key whose value
    it carries ([None] when the key is missing). *)
Definition search_columns : list (string * string) :=
  [("repo_name", "name"); ("repo_html_url", "html_url"); ("language", "language");
   ("repo_description", "description"); ("open_issues_count", "open_issues_count");
   ("forks_count", "forks_count"); ("stargazers_count", "stargazers_count");
   ("last_repo_commit_date", "updated_at")].

(** Columns of the per-user repository collection, each with the payload key
    whose value it carries. *)
Definition user_repo_columns : list (string * string) :=
  [("repo_name", "name"); ("repo_html_url", "html_url");
   ("repo_description", "description"); ("stargazers_count", "stargazers_count");
   ("forks_count", "forks_count"); ("open_issues_count", "open_issues_count");
   ("last_repo_commit_date", "updated_at")].

(** The [license] cell: the name of the payload's license, read with
    [read] ([v[k]] or [v.get(k)]), or [None] when the payload has no license
    or a falsy one. *)
Definition license_with (read : json → string → outcome json)
    (m : gmap string json) (cell : json) : Prop :=
  match m !! "license" with
  | Some lic => if truthy lic then read lic "name" = Ok cell else cell = JNull
  | None => cell = JNull
  end.

(** Whether the character occurs in the string. *)
Fixpoint has_char (c : ascii) (s : string) : bool :=
  match s with
  | EmptyString => false
  | String d s' => Ascii.eqb d c || has_char c s'
  end.

(** Follows the spec's words, for comparison with
    [RepoExtractor._get_ci_cd_tool]: the first tool, in the order Travis,
    GitLab CI, Drone, CircleCI, GitHub Actions, Jenkins, whose configuration
    file is anywhere in the list; absent when none is. *)
Definition ci_config_files : list (string * string) :=
  [(".travis.yml", "Travis CI"); (".gitlab-ci.yml", "GitLab CI");
   (".drone.yml", "Drone CI"); (".circleci/config.yml", "CircleCI");
   (".github/workflows", "GitHub Actions"); ("jenkinsfile", "Jenkins")].

Definition ci_cd_by_precedence (filenames : list string) : json :=
  match List.find (λ ft, bool_decide (ft.1 ∈ lower <$> filenames)) ci_config_files with
  | Some ft => JStr ft.2
  | None => JNull
  end.

(** Inputs of the worked examples. *)
Module Inputs.

Definition candidate : gmap string json :=
  <["login" := JStr "octo"]>
    (<["repo_name" := JStr "demo"]>
       (<["repo_html_url" := JStr "https://github.com/octo/demo"]> ∅)).

Definition demo : RepoExtractor.extractor :=
  {| RepoExtractor.row := candidate;
     RepoExtractor.base_url := "https://api.github.com/repos/octo/demo" |}.

Definition package (name : string) : json := JObj {["name" := JStr name]}.

Definition manifest (names : list string) : json :=
  JObj {["sbom" := JObj {["packages" := JArr (package <$> names)]}]}.

Definition filenames_row (names : list string) : gmap string json :=
  <["filenames" := JArr (JStr <$> names)]> candidate.

Definition child (type name path : string) : json :=
  JObj (<["type" := JStr type]> (<["name" := JStr name]> (<["path" := JStr path]> ∅))).

(** A small repository: two files and two directories at the root, one of
    them an image directory, and a source directory with a cache below it. *)
Definition tree : list (string * json) :=
  [("https://api.github.com/repos/octo/demo/contents/",
    JArr [child "file" "a.py" "a.py"; child "file" "Logo.PNG" "Logo.PNG";
          child "dir" "Images" "Images"; child "dir" "src" "src"]);
   ("https://api.github.com/repos/octo/demo/contents/Images",
    JArr [child "file" "notes.txt" "Images/notes.txt"]);
   ("https://api.github.com/repos/octo/demo/contents/src",
    JArr [child "file" "b.pyc" "src/b.pyc"; child "file" "c.py" "src/c.py";
          child "dir" "__pycache__" "src/__pycache__"]);
   ("https://api.github.com/repos/octo/demo/contents/src/__pycache__",
    JArr [child "file" "c.cpython.txt" "src/__pycache__/c.cpython.txt"])].

(** A repository as the API lists it for a user, written in a notebook. *)
Definition notebook_repo : json :=
  JObj (<["name" := JStr "analysis"]>
       (<["html_url" := JStr "https://github.com/octo/analysis"]>
       (<["description" := JNull]>
       (<["language" := JStr "Jupyter Notebook"]>
       (<["topics" := JArr [JStr "data"; JStr "egypt"]]>
       (<["stargazers_count" := JNum 7]>
       (<["forks_count" := JNum 2]>
       (<["open_issues_count" := JNum 0]>
       (<["updated_at" := JStr "2024-05-01T10:00:00Z"]>
       (<["license" := JObj {["name" := JStr "MIT License"]}]> ∅)))))))))).

(** An item of the repository search that also carries keys named like
    columns of the schema. *)
Definition search_item : json :=
  JObj (<["name" := JStr "linux"]>
       (<["repo_name" := JStr "not-the-name"]>
       (<["login" := JStr "not-the-owner"]>
       (<["owner" := JObj {["login" := JStr "torvalds"]}]>
       (<["html_url" := JStr "https://github.com/torvalds/linux"]>
       (<["language" := JStr "C"]>
       (<["topics" := JArr [JStr "kernel"]]>
       (<["stargazers_count" := JNum 150000]> ∅)))))))).

Definition octo_row : gmap string json :=
  <["login" := JStr "octo"]> (<["url" := JStr "https://api.github.com/users/octo"]> ∅).

(** The API of the small repository: its tree and its sub-resources; there
    is no tags resource. *)
Definition demo_api : list request → request → Response :=
  Sim.table_api
    (tree ++
     [("https://api.github.com/repos/octo/demo/contributors",
       JArr [JObj {["login" := JStr "octo"]}; JObj {["login" := JStr "mona"]}]);
      ("https://api.github.com/repos/octo/demo/commits",
       JArr [JObj {["sha" := JStr "1f0c"]}]);
      ("https://api.github.com/repos/octo/demo/issues",
       JArr [JObj {["state" := JStr "open"]}; JObj {["state" := JStr "closed"]}]);
      ("https://api.github.com/repos/octo/demo/pulls",
       JArr [JObj (<["state" := JStr "closed"]> {["merged_at" := JStr "2024-05-01"]})]);
      ("https://api.github.com/repos/octo/demo/dependency-graph/sbom",
       manifest ["com.github.octo/demo"; "pip:requests"])]).

End Inputs.

(** ** Vocabulary of the further properties *)

(** What [csv.DictReader] gives back for the row that the user search wrote
    for [item]: the text of its login and of its url. *)
Definition read_back (py_repr : json → string) (item : json) : gmap string json :=
  <["login" := JStr (from_option (DataCollection.csv_text py_repr) "" (fields item !! "login"))]>
    (<["url" := JStr (from_option (DataCollection.csv_text py_repr) "" (fields item !! "url"))]>
       ∅).



(** A remote file tree as the contents API lists it: files, directories with
    their children, directories whose listing the API refuses, and entries of
    another type (symlinks, submodules). *)
Inductive tree :=
| File (name path : string)
| Dir (name path : string) (children : list tree)
| Broken (name path : string)
| Other (type name path : string).

(** The entry of a listing that stands for a node. *)
Definition item_of (t : tree) : json :=
  match t with
  | File name path => Inputs.child "file" name path
  | Dir name path _ | Broken name path => Inputs.child "dir" name path
  | Other type name path => Inputs.child type name path
  end.


Definition wanted_dir (name : string) : bool :=
  negb (bool_decide (lower name ∈ RepoExtractor.excluded_dirs)).




(** The request that lists the directory at [path]. *)
Definition dir_request (self : RepoExtractor.extractor) (path : string) : request :=
  Request (RepoExtractor.contents_url self (quote path)) None.

(** The API serves the tree: a wanted directory is listed, with status 200,
    as the entries of its children; for a broken one the answer is a readable
    status other than 200; an entry of another type is neither file nor dir. *)
Fixpoint serves (transport : list request → request → Response)
    (self : RepoExtractor.extractor) (t : tree) : Prop :=
  match t with
  | File _ _ => True
  | Other type _ _ => type ≠ "file" ∧ type ≠ "dir"
  | Broken name path =>
      wanted_dir name = true →
      ∀ past, status_code (transport past (dir_request self path)) ≠ 200
              ∧ readable (transport past (dir_request self path))
  | Dir name path children =>
      wanted_dir name = true →
      (∀ past, status_code (transport past (dir_request self path)) = 200
               ∧ body (transport past (dir_request self path))
                 = Some (JArr (item_of <$> children)))
      ∧ foldr (λ c P, serves transport self c ∧ P) True children
  end.




(** ** Vocabulary of the contributor filter *)

(** The request for the profile of the contributor [login]. *)
Definition profile_request (py_repr : json → string) (login : json) : request :=
  Request ("https://api.github.com/users/" +:+ DataCollection.py_str py_repr login) None.

(** The API serves the profile of the contributor [cont], whose login is
    [a.1]; [a.2] tells whether the profile's location names Egypt. *)
Definition located (transport : list request → request → Response)
    (py_repr : json → string) (cont : json) (a : json * bool) : Prop :=
  getitem cont "login" = Ok a.1 ∧
  ∃ prof loc,
    (∀ past, status_code (transport past (profile_request py_repr a.1)) = 200
             ∧ body (transport past (profile_request py_repr a.1)) = Some prof)
    ∧ get_default prof "location" (JStr "") = Ok loc
    ∧ DataCollection.in_egypt loc = Ok a.2.

(** The item [cont] has no value under [k]. *)
Definition lacks (k : string) (cont : json) : Prop := ∀ v, getitem cont k ≠ Ok v.


(** A profile and a contributor item of the simulated API. *)
Definition profile (location : json) : json := JObj {["location" := location]}.

Definition contributor (login : string) : json := JObj {["login" := JStr login]}.

Definition tagged_contributor (login : string) : json :=
  JObj (<["login" := JStr login]> {["repo_html_url" := JStr "https://github.com/octo/demo"]}).

(** ** Vocabulary of the extractor's counts *)

(** The item's [state] is [s]. *)
Definition in_state (s : string) (x : json) : bool :=
  match getitem x "state" with Ok st => eq_str st s | _ => false end.

(** The pull request has been merged: its [merged_at] is not None. *)
Definition is_merged (x : json) : bool :=
  match getitem x "merged_at" with Ok m => negb (is_none m) | _ => false end.

(** How many of [items] pass [test]. *)
Definition how_many (test : json → bool) (items : list json) : Z :=
  Z.of_nat (length (filter (λ x, test x = true) items)).

(** The keys that [process_repo] writes. *)
Definition enrichment_keys : list string :=
  ["contributor_count"; "filenames"; "commits_count"; "issues_count";
   "pull_requests_count"; "tags"; "dependencies"; "ci_cd_tool"].


(** The row of a repository of which the API serves nothing but [n]
    contributors. *)
Definition bare_row (row : gmap string json) (n : Z) : gmap string json :=
  <["ci_cd_tool" := JNull]>
    (<["dependencies" := JNull]>
       (<["tags" := JNull]>
          (<["pull_requests_count" := JNull]>
             (<["issues_count" := JNull]>
                (<["commits_count" := JNum 0]>
                   (<["filenames" := JArr []]>
                      (<["contributor_count" := JNum n]> row))))))).

(** ** The monad, step by step *)

Lemma bind_Ok {A B} (m : M A) (f : A → M B) w a w1 :
  m w = (Ok a, w1) → (m ≫= f) w = f a w1.
Proof. intros H. unfold mbind, M_bind. by rewrite H. Qed.

Lemma bind_inv {A B} (m : M A) (f : A → M B) w r w' :
  (m ≫= f) w = (r, w') →
  (∃ a w1, m w = (Ok a, w1) ∧ f a w1 = (r, w'))
  ∨ (∃ e, m w = (Raise e, w') ∧ r = Raise e)
  ∨ (m w = (OutOfFuel, w') ∧ r = OutOfFuel).
Proof.
  unfold mbind, M_bind. destruct (m w) as [[a|e|] w1]; intros H.
  - left. eauto.
  - right; left. inversion H; subst. eauto.
  - right; right. inversion H; subst. eauto.
Qed.

Lemma bind_lift_Ok {A B} (o : outcome A) (f : A → M B) w a :
  o = Ok a → (lift o ≫= f) w = f a w.
Proof. intros ->. reflexivity. Qed.

(** ** The request client *)

Lemma handle_api_errors_frame r w o w' :
  GitHubAPI._handle_api_errors r w = (o, w') →
  requests w' = requests w ∧ fs w' = fs w.
Proof.
  unfold GitHubAPI._handle_api_errors.
  repeat case_match; cbv [mret M_ret raise mbind M_bind logger];
    intros [= <- <-]; done.
Qed.





(** ** Strings *)

Lemma append_cons c s t : String c s +:+ t = String c (s +:+ t).
Proof. reflexivity. Qed.

Lemma append_assoc s1 s2 s3 : (s1 +:+ s2) +:+ s3 = s1 +:+ s2 +:+ s3.
Proof. induction s1 as [|c s1 IH]; [done|]. by rewrite !append_cons, IH. Qed.

Lemma split_nonempty sep s : split sep s ≠ [].
Proof. destruct s as [|c s]; simpl; [done|]. repeat case_match; done. Qed.

Lemma join_cons sep x l :
  l ≠ [] → join sep (x :: l) = x +:+ sep +:+ join sep l.
Proof. destruct l; [done|reflexivity]. Qed.

Lemma split_join sep s : join (String sep EmptyString) (split sep s) = s.
Proof.
  induction s as [|c s IH]; simpl; [done|].
  destruct (Ascii.eqb_spec c sep) as [->|Hc].
  - rewrite join_cons by apply split_nonempty. simpl. by rewrite IH.
  - destruct (split sep s) as [|h t] eqn:E; [by destruct (split_nonempty sep s)|].
    destruct t as [|h' t]; simpl in *; by rewrite <- IH.
Qed.

Lemma split_no_sep sep s : Forall (λ t, has_char sep t = false) (split sep s).
Proof.
  induction s as [|c s IH]; simpl; [by repeat constructor|].
  destruct (Ascii.eqb_spec c sep) as [->|Hc]; [by constructor|].
  destruct (split sep s) as [|h t]; inversion IH; subst; constructor; simpl; auto.
  - by destruct (Ascii.eqb_spec c sep).
  - by destruct (Ascii.eqb_spec c sep).
Qed.

Lemma join_last sep l t :
  last l = Some t →
  join sep l = t ∨ ∃ pre, join sep l = pre +:+ sep +:+ t.
Proof.
  induction l as [|x l IH]; [done|].
  destruct l as [|y l].
  - intros [= ->]. by left.
  - intros Hl. change (last (y :: l) = Some t) in Hl.
    rewrite join_cons by done. right.
    destruct (IH Hl) as [->|[pre ->]].
    + by exists x.
    + exists (x +:+ sep +:+ pre).
      by rewrite !append_assoc.
Qed.

(** [pkg.split(':')[-1]] is what follows the last colon, or the whole name
    when it has none. *)
Lemma after_last_colon_spec s :
  has_char ":" (RepoExtractor.after_last_colon s) = false
  ∧ (s = RepoExtractor.after_last_colon s
     ∨ ∃ pre, s = pre +:+ ":" +:+ RepoExtractor.after_last_colon s).
Proof.
  unfold RepoExtractor.after_last_colon, last_item.
  destruct (last (split ":" s)) as [t|] eqn:E.
  - simpl. split.
    + pose proof (split_no_sep ":" s) as HF.
      rewrite Forall_forall in HF. apply HF. by apply last_Some_elem_of.
    + pose proof (join_last ":" _ _ E) as HJ. rewrite split_join in HJ.
      destruct HJ as [->|[pre ->]]; eauto.
  - apply last_None in E. by destruct (split_nonempty ":" s).
Qed.

(** ** [_get] *)

Lemma get_unfold transport u ps w :
  GitHubAPI._get transport u ps w
  = GitHubAPI._handle_api_errors (transport (requests w) (Request u ps))
      (sent (Request u ps) w).
Proof. reflexivity. Qed.

Lemma get_frame transport u ps w o w' :
  GitHubAPI._get transport u ps w = (o, w') →
  requests w' = requests w ++ [Request u ps] ∧ fs w' = fs w.
Proof. rewrite get_unfold. intros H. by apply handle_api_errors_frame in H. Qed.

Lemma get_200 transport u ps w data :
  status_code (transport (requests w) (Request u ps)) = 200 →
  body (transport (requests w) (Request u ps)) = Some data →
  GitHubAPI._get transport u ps w = (Ok data, sent (Request u ps) w).
Proof.
  intros Hs Hb. rewrite get_unfold. unfold GitHubAPI._handle_api_errors.
  by rewrite Hs, Hb.
Qed.

(** ** CI tool detection *)

(** Only the first file name is ever compared. *)
Lemma ci_cd_tool_reads_first (r : gmap string json) f rest :
  r !! "filenames" = Some (JArr (JStr f :: rest)) →
  RepoExtractor._get_ci_cd_tool r = Ok (RepoExtractor.ci_cd_of f).
Proof. intros H. unfold RepoExtractor._get_ci_cd_tool. simpl. by rewrite H. Qed.

(** C4: the code at the failing inputs. With a Travis file second in the
    list the detector returns [None] where the precedence order of the claim
    gives Travis CI; with a GitLab file before a Travis file it returns the
    first file's tool, not the one first in precedence; a lower-cased name
    never equals ["Jenkinsfile"], so Jenkins is never detected. *)
Theorem ci_cd_tool_first_file_only :
  RepoExtractor._get_ci_cd_tool (Inputs.filenames_row ["README.md"; ".travis.yml"])
    = Ok JNull
  ∧ ci_cd_by_precedence ["README.md"; ".travis.yml"] = JStr "Travis CI"
  ∧ RepoExtractor._get_ci_cd_tool (Inputs.filenames_row [".gitlab-ci.yml"; ".travis.yml"])
    = Ok (JStr "GitLab CI")
  ∧ ci_cd_by_precedence [".gitlab-ci.yml"; ".travis.yml"] = JStr "Travis CI"
  ∧ RepoExtractor._get_ci_cd_tool (Inputs.filenames_row ["Jenkinsfile"]) = Ok JNull
  ∧ ci_cd_by_precedence ["Jenkinsfile"] = JStr "Jenkins".
Proof. repeat split; vm_compute; reflexivity. Qed.

(** ** Dependency names *)

Lemma map_outcome_names pkgs names :
  Forall2 (λ pkg name, getitem pkg "name" = Ok (JStr name)) pkgs names →
  RepoExtractor.map_outcome (λ package, getitem package "name") pkgs
  = Ok (JStr <$> names).
Proof.
  induction 1 as [|pkg name pkgs names H _ IH]; [done|].
  simpl. rewrite H. simpl. rewrite IH. reflexivity.
Qed.

Lemma map_outcome_split_name names :
  RepoExtractor.map_outcome RepoExtractor.split_name (JStr <$> names)
  = Ok (JStr <$> (RepoExtractor.after_last_colon <$> names)).
Proof.
  induction names as [|n names IH]; [done|].
  rewrite !fmap_cons. cbn [RepoExtractor.map_outcome]. rewrite IH. reflexivity.
Qed.

Lemma dependencies_of_names data sbom pkgs names :
  getitem data "sbom" = Ok sbom →
  getitem sbom "packages" = Ok (JArr pkgs) →
  Forall2 (λ pkg name, getitem pkg "name" = Ok (JStr name)) pkgs names →
  RepoExtractor.dependencies_of data
  = Ok (JArr (JStr <$> (RepoExtractor.after_last_colon <$> tail names))).
Proof.
  intros Hs Hp Hn. unfold RepoExtractor.dependencies_of.
  rewrite Hs. simpl. rewrite Hp. simpl.
  rewrite (map_outcome_names _ _ Hn). simpl.
  rewrite map_outcome_split_name. simpl.
  by destruct names.
Qed.

(** C5, as amended: on a successful manifest response the extraction drops
    exactly the first package and turns each remaining name into what follows
    its last colon (the whole name when it has none), so that
    ["pkg:pypi/foo"] yields ["pypi/foo"]. *)
Theorem get_dependencies_drops_first transport self w data sbom pkgs names :
  let req := Request (RepoExtractor.base_url self +:+ "/dependency-graph/sbom") None in
  status_code (transport (requests w) req) = 200 →
  body (transport (requests w) req) = Some data →
  getitem data "sbom" = Ok sbom →
  getitem sbom "packages" = Ok (JArr pkgs) →
  Forall2 (λ pkg name, getitem pkg "name" = Ok (JStr name)) pkgs names →
  (∃ w', RepoExtractor._get_dependencies transport self w
         = (Ok (JArr (JStr <$> (RepoExtractor.after_last_colon <$> tail names))), w'))
  ∧ (∀ name,
       has_char ":" (RepoExtractor.after_last_colon name) = false
       ∧ (name = RepoExtractor.after_last_colon name
          ∨ ∃ pre, name = pre +:+ ":" +:+ RepoExtractor.after_last_colon name))
  ∧ RepoExtractor.after_last_colon "pkg:pypi/foo" = "pypi/foo".
Proof.
  intros req Hs Hb Hsbom Hpk Hn. split; [|split]; [|apply after_last_colon_spec|reflexivity].
  unfold RepoExtractor._get_dependencies.
  erewrite bind_Ok by (by apply get_200).
  assert (truthy data = true) as ->.
  { destruct data as [| | | | |m]; try discriminate Hsbom. simpl.
    apply negb_true_iff, bool_decide_eq_false. intros ->. simpl in Hsbom.
    by rewrite lookup_empty in Hsbom. }
  erewrite bind_lift_Ok by (by eapply dependencies_of_names).
  cbv [mbind M_bind logger mret M_ret]. eauto.
Qed.

Lemma get_dependencies_drops_first_witness :
  (∃ w', RepoExtractor._get_dependencies
           (Sim.table_api
              [("https://api.github.com/repos/octo/demo/dependency-graph/sbom",
                Inputs.manifest ["com.github.octo/demo"; "pip:requests"; "pkg:pypi/foo"])])
           Inputs.demo Sim.empty_world
         = (Ok (JArr [JStr "requests"; JStr "pypi/foo"]), w')).
Proof.
  refine (proj1 (get_dependencies_drops_first
           (Sim.table_api
              [("https://api.github.com/repos/octo/demo/dependency-graph/sbom",
                Inputs.manifest ["com.github.octo/demo"; "pip:requests"; "pkg:pypi/foo"])])
           Inputs.demo Sim.empty_world
           (Inputs.manifest ["com.github.octo/demo"; "pip:requests"; "pkg:pypi/foo"])
           (JObj {["packages" := JArr (Inputs.package <$>
                     ["com.github.octo/demo"; "pip:requests"; "pkg:pypi/foo"])]})
           (Inputs.package <$> ["com.github.octo/demo"; "pip:requests"; "pkg:pypi/foo"])
           ["com.github.octo/demo"; "pip:requests"; "pkg:pypi/foo"]
           _ _ _ _ _)).
  - reflexivity.
  - vm_compute. reflexivity.
  - reflexivity.
  - reflexivity.
  - repeat constructor.
Defined.

(** C5, as stated, fails: the name ["pkg:pypi/foo"] comes out as
    ["pypi/foo"], not ["foo"]. *)
Lemma get_dependencies_keeps_namespace :
  let run := RepoExtractor._get_dependencies
               (Sim.table_api
                  [("https://api.github.com/repos/octo/demo/dependency-graph/sbom",
                    Inputs.manifest ["com.github.octo/demo"; "pkg:pypi/foo"])])
               Inputs.demo Sim.empty_world in
  run.1 = Ok (JArr [JStr "pypi/foo"]) ∧ run.1 ≠ Ok (JArr [JStr "foo"]).
Proof. split; [vm_compute; reflexivity|]. vm_compute. discriminate. Qed.

(** ** The repository aggregator *)

Ltac minv H :=
  let a := fresh "a" in let w1 := fresh "w" in let H1 := fresh "Hm" in
  let e := fresh "e" in
  apply bind_inv in H as [(a & w1 & H1 & H) | [(e & H1 & ->) | [H1 ->]]].

Ltac mdone H :=
  cbv [lift logger mret M_ret raise out_of_fuel send history open_w write_row] in H;
  simplify_eq.

Lemma get_contributors_count_frame transport self w o w' :
  RepoExtractor._get_contributors_count transport self w = (o, w') →
  requests w' = requests w ++ [Request (RepoExtractor.base_url self +:+ "/contributors") None]
  ∧ fs w' = fs w.
Proof.
  unfold RepoExtractor._get_contributors_count. intros H.
  minv H; try (by apply get_frame in Hm).
  apply get_frame in Hm as [Hr Hf].
  destruct (truthy a); [|mdone H; done].
  minv H; try (mdone Hm; done).
  mdone Hm. minv H; mdone Hm. mdone H. done.
Qed.

(** C6: when the contributor count comes back absent or at most 1,
    [process_repo] issues the contributors request and nothing else, writes no
    file, and returns the candidate with [contributor_count] set and every
    other key as it was, so the enrichment keys stay absent. *)
Theorem process_repo_excluded transport self fuel w count w1 :
  RepoExtractor._get_contributors_count transport self w = (Ok count, w1) →
  count = JNull ∨ (∃ n, count = JNum n ∧ n ≤ 1) →
  ∃ w', RepoExtractor.process_repo transport self fuel w
        = (Ok (<["contributor_count" := count]> (RepoExtractor.row self)), w')
        ∧ requests w'
          = requests w ++ [Request (RepoExtractor.base_url self +:+ "/contributors") None]
        ∧ fs w' = fs w
        ∧ ∀ k, k ≠ "contributor_count" →
               (<["contributor_count" := count]> (RepoExtractor.row self)) !! k
               = RepoExtractor.row self !! k.
Proof.
  intros Hc Hcount.
  destruct (get_contributors_count_frame _ _ _ _ _ Hc) as [Hr Hf].
  unfold RepoExtractor.process_repo.
  erewrite bind_Ok by exact Hc.
  assert ((c ← getitem (JObj (<["contributor_count" := count]> (RepoExtractor.row self)))
                 "contributor_count"; RepoExtractor.included c) = Ok false) as Hgo.
  { unfold getitem. rewrite lookup_insert_eq. simpl.
    destruct Hcount as [->|(n & -> & Hn)]; [done|].
    unfold RepoExtractor.included. simpl.
    destruct (Z.gtb_spec n 1); [lia|done]. }
  erewrite bind_lift_Ok by exact Hgo.
  eexists. split; [reflexivity|]. simpl.
  repeat split; [done..|]. intros k Hk. by rewrite lookup_insert_ne.
Qed.

Lemma process_repo_excluded_witness :
  ∃ w', RepoExtractor.process_repo
          (Sim.table_api
             [("https://api.github.com/repos/octo/demo/contributors",
               JArr [JObj {["login" := JStr "octo"]}])])
          Inputs.demo 5 Sim.empty_world
        = (Ok (<["contributor_count" := JNum 1]> Inputs.candidate), w')
        ∧ requests w' = [Request "https://api.github.com/repos/octo/demo/contributors" None]
        ∧ fs w' = ∅
        ∧ ∀ k, k ≠ "contributor_count" →
               (<["contributor_count" := JNum 1]> Inputs.candidate) !! k
               = Inputs.candidate !! k.
Proof.
  eapply (process_repo_excluded
            (Sim.table_api
               [("https://api.github.com/repos/octo/demo/contributors",
                 JArr [JObj {["login" := JStr "octo"]}])])
            Inputs.demo 5 Sim.empty_world (JNum 1)).
  - vm_compute. reflexivity.
  - right. exists 1. split; [reflexivity|lia].
Defined.

(** ** The tree walker *)

Lemma endswith_refl s : endswith s s = true.
Proof. destruct s; simpl; [done|]. by rewrite Ascii.eqb_refl, String.eqb_refl. Qed.

Lemma endswith_unfold s suf :
  endswith s suf
  = if String.eqb s suf then true
    else match s with EmptyString => false | String _ s' => endswith s' suf end.
Proof. by destruct s. Qed.

Lemma endswith_spec s suf : endswith s suf = true ↔ ∃ pre, s = pre +:+ suf.
Proof.
  split.
  - induction s as [|c s IH]; rewrite endswith_unfold.
    + destruct (String.eqb_spec "" suf) as [<-|]; [|done]. by exists "".
    + destruct (String.eqb_spec (String c s) suf) as [<-|]; [by exists ""|].
      intros H. destruct (IH H) as [pre ->]. by exists (String c pre).
  - intros [pre ->]. induction pre as [|c pre IH]; [apply endswith_refl|].
    rewrite append_cons, endswith_unfold, IH. by case_match.
Qed.

Lemma is_wanted_file_true item :
  RepoExtractor.is_wanted_file item = Ok true → kept_file item.
Proof.
  unfold RepoExtractor.is_wanted_file, RepoExtractor.lower_name.
  destruct (getitem item "type") as [ty| |] eqn:Hty; simpl; [|done..].
  destruct ty as [| | |t| |]; simpl; try done.
  destruct (String.eqb_spec t "file") as [->|]; [|done].
  destruct (getitem item "name") as [[| | |name| |]| |] eqn:Hname; simpl; try done.
  intros [= Hends]. exists name. repeat split; [done..|].
  intros ext Hext Hsuf. apply endswith_spec in Hsuf.
  apply negb_true_iff in Hends.
  change (existsb (endswith (lower name)) RepoExtractor.excluded_extensions = false) in Hends.
  assert (existsb (endswith (lower name)) RepoExtractor.excluded_extensions = true);
    [|congruence].
  apply existsb_exists. exists ext. split; [|done]. by apply list_elem_of_In.
Qed.

Lemma is_wanted_dir_true item :
  RepoExtractor.is_wanted_dir item = Ok true → entered_dir item.
Proof.
  unfold RepoExtractor.is_wanted_dir, RepoExtractor.lower_name.
  destruct (getitem item "type") as [ty| |] eqn:Hty; simpl; [|done..].
  destruct ty as [| | |t| |]; simpl; try done.
  destruct (String.eqb_spec t "dir") as [->|]; [|done].
  destruct (getitem item "name") as [[| | |name| |]| |] eqn:Hname; simpl; try done.
  intros [= Hin]. exists name. repeat split; [done..|].
  by apply negb_true_iff, bool_decide_eq_false in Hin.
Qed.

Lemma served_mono transport w w' item new :
  requests w' = requests w ++ new → served transport w item → served transport w' item.
Proof.
  intros Hw (past & req & rest & data & items & Hr & H).
  exists past, req, (rest ++ new), data, items. split; [|done].
  by rewrite Hw, Hr, <- app_assoc.
Qed.

Lemma get_Ok_truthy transport u ps w data w' :
  GitHubAPI._get transport u ps w = (Ok data, w') →
  truthy data = true →
  status_code (transport (requests w) (Request u ps)) = 200
  ∧ body (transport (requests w) (Request u ps)) = Some data.
Proof.
  rewrite get_unfold. unfold GitHubAPI._handle_api_errors.
  set (r := transport _ _). intros H Ht.
  destruct (Z.eqb_spec (status_code r) 200) as [E|N].
  - split; [done|]. destruct (body r); mdone H. done.
  - exfalso. repeat case_match; cbv [mbind M_bind] in H; mdone H; done.
Qed.

Ltac mred H :=
  cbv beta iota zeta delta [mbind M_bind outcome_bind lift mret M_ret outcome_ret
                            raise logger out_of_fuel] in H.

Section walker.
Variable transport : list request → request → Response.
Variable self : RepoExtractor.extractor.

#[local] Abbreviation yield_ok := (yield_ok transport).
#[local] Abbreviation descent_ok := (descent_ok transport self).
#[local] Abbreviation items_ok := (items_ok transport self).
#[local] Abbreviation walk_ok := (walk_ok transport self).

Lemma yield_ok_mono w w' new p :
  requests w' = requests w ++ new → yield_ok w p → yield_ok w' p.
Proof. intros Hw (item & Hs & H). exists item. split; [|done]. by eapply served_mono. Qed.

Lemma descent_ok_mono w w' new req :
  requests w' = requests w ++ new → descent_ok w req → descent_ok w' req.
Proof.
  intros Hw (item & p & Hs & H). exists item, p. split; [|done]. by eapply served_mono.
Qed.

Lemma items_ok_stop w res : (∀ paths, res ≠ Ok paths) → items_ok w res w.
Proof.
  intros H. split; [by intros paths ?%H|]. exists []. by rewrite app_nil_r.
Qed.

Lemma items_ok_nil w : items_ok w (Ok []) w.
Proof. split; [by intros ? [= <-]|]. exists []. by rewrite app_nil_r. Qed.

(** A wanted file in front of the rest of the listing. *)
Lemma items_ok_file w item p res w' :
  served transport w item → kept_file item → getitem item "path" = Ok p →
  items_ok w res w' →
  items_ok w (more ← res; Ok (p :: more)) w'.
Proof.
  intros Hs Hk Hp [Hy (new & Hnew & Hd)]. split; [|by eauto].
  destruct res as [more| |]; try done. intros ? [= <-].
  constructor; [|by apply Hy]. exists item. split; [by eapply served_mono|done].
Qed.

(** A wanted directory in front of the rest of the listing. *)
Lemma items_ok_dir w item p r1 w1 r2 w2 :
  served transport w item → entered_dir item → getitem item "path" = Ok p →
  walk_ok p w r1 w1 →
  items_ok w1 r2 w2 →
  items_ok w (below ← r1; more ← r2; Ok (below ++ more)) w2.
Proof.
  intros Hs Hdir Hp [Hy1 (new1 & Hnew1 & Hd1)] [Hy2 (new2 & Hnew2 & Hd2)].
  split.
  - destruct r1 as [below| |], r2 as [more| |]; try done. intros ? [= <-].
    apply Forall_app. split; [|by apply Hy2].
    eapply Forall_impl; [by apply Hy1|]. intros q. by apply yield_ok_mono with new2.
  - exists (new1 ++ new2). split; [by rewrite Hnew2, Hnew1, app_assoc|].
    apply Forall_app. split; [|done].
    eapply Forall_impl; [exact Hd1|]. intros req [Hl|Hd].
    + exists item, p. split; [|done].
      apply served_mono with w (new1 ++ new2); [|done].
      by rewrite Hnew2, Hnew1, app_assoc.
    + by apply descent_ok_mono with w1 new2.
Qed.

Lemma each_item_ok recurse :
  (∀ d w res w', recurse d w = (res, w') → walk_ok d w res w') →
  ∀ items w res w',
    Forall (served transport w) items →
    RepoExtractor.each_item recurse items w = (res, w') →
    items_ok w res w'.
Proof.
  intros Hrec. induction items as [|item rest IH]; intros w res w' Hserved H.
  { cbn [RepoExtractor.each_item] in H. mdone H. apply items_ok_nil. }
  apply Forall_cons in Hserved as [Hitem Hrest].
  cbn [RepoExtractor.each_item] in H.
  destruct (RepoExtractor.is_wanted_file item) as [[|]| |] eqn:Hfile;
    mred H; [| |by simplify_eq; apply items_ok_stop..].
  - (* a wanted file *)
    apply is_wanted_file_true in Hfile.
    destruct (getitem item "path") as [p| |] eqn:Hp;
      [|by simplify_eq; apply items_ok_stop..].
    destruct (RepoExtractor.each_item recurse rest w) as [r2 w2] eqn:Hrest2.
    apply IH in Hrest2; [|done].
    assert (res = (more ← r2; Ok (p :: more)) ∧ w' = w2) as [-> ->].
    { destruct r2; by simplify_eq. }
    by eapply items_ok_file.
  - destruct (RepoExtractor.is_wanted_dir item) as [[|]| |] eqn:Hdir;
      [| |by simplify_eq; apply items_ok_stop..].
    + (* a wanted directory *)
      apply is_wanted_dir_true in Hdir.
      destruct (getitem item "path") as [p| |] eqn:Hp;
        [|by simplify_eq; apply items_ok_stop..].
      destruct (recurse p w) as [r1 w1] eqn:Hbelow.
      apply Hrec in Hbelow.
      destruct (RepoExtractor.each_item recurse rest w1) as [r2 w2] eqn:Hrest2.
      apply IH in Hrest2.
      2:{ destruct Hbelow as [_ (new & Hnew & _)].
          eapply Forall_impl; [exact Hrest|]. intros x. by apply served_mono with new. }
      destruct r1 as [below| |].
      * assert (res = (below ← Ok below; more ← r2; Ok (below ++ more)) ∧ w' = w2)
          as [-> ->].
        { destruct r2; by simplify_eq. }
        by eapply items_ok_dir.
      * simplify_eq. eapply (items_ok_dir _ _ _ (Raise e) w' (Ok []) w'); eauto using items_ok_nil.
      * simplify_eq. eapply (items_ok_dir _ _ _ OutOfFuel w' (Ok []) w'); eauto using items_ok_nil.
    + by apply IH.
Qed.

Lemma fetch_recursive_ok fuel :
  ∀ d w res w',
    RepoExtractor._fetch_recursive transport self fuel d w = (res, w') →
    walk_ok d w res w'.
Proof.
  induction fuel as [|fuel IH]; intros d w res w' H.
  { cbn [RepoExtractor._fetch_recursive] in H. mdone H.
    split; [done|]. exists []. by rewrite app_nil_r. }
  cbn [RepoExtractor._fetch_recursive] in H.
  destruct (RepoExtractor.quote_json d) as [q| |] eqn:Hq; mred H;
    [|by simplify_eq; split; [done|exists []; rewrite app_nil_r]..].
  destruct (GitHubAPI._get transport (RepoExtractor.contents_url self q) None w)
    as [r1 w1] eqn:Hget.
  pose proof (get_frame _ _ _ _ _ _ Hget) as [Hreq _].
  assert (Forall (λ req, listing_of self d req ∨ descent_ok w1 req)
            [Request (RepoExtractor.contents_url self q) None]) as Hroot.
  { constructor; [|constructor]. left. by exists q. }
  destruct r1 as [data| |];
    [|by simplify_eq; split; [done|eauto]..].
  destruct (truthy data) eqn:Ht.
  - destruct (get_Ok_truthy _ _ _ _ _ _ Hget Ht) as [Hs Hb].
    destruct (Py.iter data) as [items| |] eqn:Hit;
      [|by simplify_eq; split; [done|eauto]..].
    assert (Forall (served transport w1) items) as Hserved.
    { apply Forall_forall. intros item Hin.
      exists (requests w), (Request (RepoExtractor.contents_url self q) None), [], data, items.
      by rewrite Hreq. }
    destruct (each_item_ok _ IH _ _ _ _ Hserved H) as [Hy (new & Hnew & Hd)].
    split; [done|]. exists (Request (RepoExtractor.contents_url self q) None :: new).
    split; [by rewrite Hnew, Hreq, <- app_assoc|].
    constructor; [left; by exists q|].
    eapply Forall_impl; [exact Hd|]. by right.
  - simplify_eq. split; [by intros ? [= <-]|]. simpl. eauto.
Qed.
End walker.

(** C8: whatever the API serves and however deep the walk goes, every path
    the walker yields is the path of a served child of type file whose
    lower-case name ends with none of [.pyc .png .jpg .jpeg .gif], and every
    directory it lists, apart from the one it was started on, is the path of a
    served child of type dir whose lower-case name is none of [images imgs
    __pycache__]. The requests are judged whether the walk ends, raises or
    runs out of fuel. *)
Theorem fetch_recursive_filters transport self fuel d w :
  let run := RepoExtractor._fetch_recursive transport self fuel d w in
  (∀ paths, run.1 = Ok paths → Forall (yield_ok transport run.2) paths)
  ∧ ∃ new, requests run.2 = requests w ++ new
           ∧ Forall (λ req, listing_of self d req
                            ∨ descent_ok transport self run.2 req) new.
Proof.
  intros run. apply (fetch_recursive_ok transport self fuel d w run.1 run.2).
  subst run. by destruct (RepoExtractor._fetch_recursive _ _ _ _ _).
Qed.

(** [__init__] on the candidate gives the extractor of the examples. *)
Example init_candidate : RepoExtractor.init Inputs.candidate = Ok Inputs.demo.
Proof. reflexivity. Qed.

(** The walk of [Inputs.tree]: the image and the compiled file are left out,
    and neither [Images] nor [__pycache__] is listed. *)
Example get_filenames_tree :
  let run := RepoExtractor._get_filenames (Sim.table_api Inputs.tree) Inputs.demo 3
               Sim.empty_world in
  run.1 = Ok (JArr [JStr "a.py"; JStr "src/c.py"])
  ∧ url <$> requests run.2
    = ["https://api.github.com/repos/octo/demo/contents/";
       "https://api.github.com/repos/octo/demo/contents/src"].
Proof. split; vm_compute; reflexivity. Qed.

(** A candidate with two contributors is enriched: seven more requests, in
    the order of the code, and one key per sub-fetch; the tags request is
    answered 404 and leaves [None]. *)
Example process_repo_enriches :
  let run := RepoExtractor.process_repo Inputs.demo_api Inputs.demo 3 Sim.empty_world in
  ∃ r, run.1 = Ok r
       ∧ r !! "contributor_count" = Some (JNum 2)
       ∧ r !! "filenames" = Some (JArr [JStr "a.py"; JStr "src/c.py"])
       ∧ r !! "commits_count" = Some (JNum 1)
       ∧ r !! "issues_count"
         = Some (JObj (<["open" := JNum 1]> (<["closed" := JNum 1]> ∅)))
       ∧ r !! "pull_requests_count"
         = Some (JObj (<["open" := JNum 0]> (<["closed" := JNum 1]>
                        (<["merged" := JNum 1]> ∅))))
       ∧ r !! "tags" = Some JNull
       ∧ r !! "dependencies" = Some (JArr [JStr "requests"])
       ∧ r !! "ci_cd_tool" = Some JNull
       ∧ url <$> requests run.2
         = ["https://api.github.com/repos/octo/demo/contributors";
            "https://api.github.com/repos/octo/demo/contents/";
            "https://api.github.com/repos/octo/demo/contents/src";
            "https://api.github.com/repos/octo/demo/commits";
            "https://api.github.com/repos/octo/demo/issues";
            "https://api.github.com/repos/octo/demo/pulls";
            "https://api.github.com/repos/octo/demo/tags";
            "https://api.github.com/repos/octo/demo/dependency-graph/sbom"].
Proof. eexists. repeat split; vm_compute; reflexivity. Qed.

(** ** The collection loops *)

Import DataCollection.

(** ** Relations that every step respects *)

Lemma respects_bind {A B} R `{!Transitive R} (m : M A) (f : A → M B) :
  respects R m → (∀ a, respects R (f a)) → respects R (m ≫= f).
Proof.
  intros Hm Hf w. specialize (Hm w). unfold mbind, M_bind.
  destruct (m w) as [[a| |] w1]; simpl in *; [|done..].
  etrans; [exact Hm|]. apply Hf.
Qed.

Lemma respects_pure {A} R `{!Reflexive R} (o : outcome A) : respects R (lift o).
Proof. intros w. simpl. reflexivity. Qed.

Lemma respects_ret {A} R `{!Reflexive R} (a : A) : respects R (mret a).
Proof. intros w. simpl. reflexivity. Qed.

Lemma respects_raise {A} R `{!Reflexive R} e : respects R (raise (A:=A) e).
Proof. intros w. simpl. reflexivity. Qed.

Lemma respects_out_of_fuel {A} R `{!Reflexive R} : respects R (out_of_fuel (A:=A)).
Proof. intros w. simpl. reflexivity. Qed.

#[local] Instance same_requests_refl : Reflexive same_requests.
Proof. by intros w. Qed.
#[local] Instance same_requests_trans : Transitive same_requests.
Proof. unfold same_requests. intros w1 w2 w3 H1 H2. congruence. Qed.
#[local] Instance same_files_refl : Reflexive same_files.
Proof. by intros w. Qed.
#[local] Instance same_files_trans : Transitive same_files.
Proof. unfold same_files. intros w1 w2 w3 H1 H2. congruence. Qed.
#[local] Instance appends_refl path : Reflexive (appends path).
Proof. intros w f Hf. exists []. by rewrite app_nil_r. Qed.
#[local] Instance appends_trans path : Transitive (appends path).
Proof.
  intros w1 w2 w3 H1 H2 f Hf.
  destruct (H1 f Hf) as [r1 Hr1]. destruct (H2 _ Hr1) as [r2 Hr2].
  exists (r1 ++ r2). by rewrite app_assoc.
Qed.

Lemma same_files_appends path w w' : same_files w w' → appends path w w'.
Proof. intros H f Hf. exists []. by rewrite app_nil_r, H. Qed.

Lemma logger_same_requests lvl msg : respects same_requests (logger lvl msg).
Proof. by intros w. Qed.
Lemma logger_same_files lvl msg : respects same_files (logger lvl msg).
Proof. by intros w. Qed.
Lemma logger_appends path lvl msg : respects (appends path) (logger lvl msg).
Proof. intros w. apply same_files_appends, logger_same_files. Qed.

Lemma get_same_files transport u ps : respects same_files (GitHubAPI._get transport u ps).
Proof.
  intros w. destruct (GitHubAPI._get transport u ps w) as [o w'] eqn:E.
  by apply get_frame in E as [_ ?].
Qed.
Lemma get_appends path transport u ps : respects (appends path) (GitHubAPI._get transport u ps).
Proof. intros w. apply same_files_appends, get_same_files. Qed.

Lemma write_row_same_requests path row : respects same_requests (write_row path row).
Proof. by intros w. Qed.

Lemma write_row_appends path p row : respects (appends path) (write_row p row).
Proof.
  intros w f Hf. simpl. destruct (decide (p = path)) as [->|Hne].
  - rewrite lookup_insert_eq, Hf. simpl. eauto.
  - rewrite lookup_insert_ne by done. exists []. by rewrite app_nil_r.
Qed.

Lemma writerow_same_requests py_repr path cols d :
  respects same_requests (writerow py_repr path cols d).
Proof. unfold writerow. case_bool_decide; [apply write_row_same_requests|by intros w]. Qed.

Lemma writerow_appends py_repr path p cols d :
  respects (appends path) (writerow py_repr p cols d).
Proof.
  unfold writerow. case_bool_decide; [apply write_row_appends|].
  apply respects_raise, _.
Qed.

Create HintDb respects discriminated.
#[local] Hint Resolve respects_pure respects_ret respects_raise respects_out_of_fuel
  logger_same_requests logger_appends get_appends write_row_same_requests
  write_row_appends writerow_same_requests writerow_appends : respects.
#[local] Hint Extern 0 (Reflexive _) => apply _ : respects.
#[local] Hint Extern 0 (Transitive _) => apply _ : respects.

(** Splits a chain of binds, one step at a time. *)
Ltac respects_steps :=
  repeat first
    [ progress auto with respects
    | apply respects_bind; [apply _| |intros ?]
    | match goal with
      | |- respects _ (if ?b then _ else _) => destruct b
      | |- respects _ (match ?o with _ => _ end) => destruct o
      end ].

Section loops.
Variable transport : list request → request → Response.
Variable py_repr : json → string.

Lemma write_users_same_requests path items :
  respects same_requests (write_users py_repr path items).
Proof. induction items as [|item rest IH]; cbn [write_users]; respects_steps. Qed.

Lemma write_users_appends path p items :
  respects (appends path) (write_users py_repr p items).
Proof. induction items as [|item rest IH]; cbn [write_users]; respects_steps. Qed.

Lemma write_repos_same_requests path items s t :
  respects same_requests (write_repos py_repr path items s t).
Proof.
  revert s. induction items as [|item rest IH]; intros s; cbn [write_repos]; respects_steps.
Qed.

Lemma write_repos_appends path p items s t :
  respects (appends path) (write_repos py_repr p items s t).
Proof.
  revert s. induction items as [|item rest IH]; intros s; cbn [write_repos]; respects_steps.
Qed.

Lemma write_user_repos_appends path p row repos :
  respects (appends path) (write_user_repos py_repr p row repos).
Proof. induction repos as [|repo rest IH]; cbn [write_user_repos]; respects_steps. Qed.

#[local] Hint Resolve write_users_same_requests write_users_appends
  write_repos_same_requests write_repos_appends write_user_repos_appends : respects.

Lemma users_loop_appends path p fuel ps page :
  respects (appends path) (users_loop transport py_repr fuel p ps page).
Proof.
  revert ps page. induction fuel as [|fuel IH]; intros ps page; cbn [users_loop];
    respects_steps.
Qed.

Lemma repos_loop_appends path p fuel ps page s t :
  respects (appends path) (repos_loop transport py_repr fuel p ps page s t).
Proof.
  revert page s. induction fuel as [|fuel IH]; intros page s; cbn [repos_loop];
    respects_steps.
Qed.

Lemma users_rows_loop_appends path p i rows :
  respects (appends path) (users_rows_loop transport py_repr p i rows).
Proof.
  revert i. induction rows as [|row rest IH]; intros i; cbn [users_rows_loop];
    respects_steps.
Qed.
End loops.

#[local] Hint Resolve write_users_same_requests write_users_appends
  write_repos_same_requests write_repos_appends write_user_repos_appends
  users_loop_appends repos_loop_appends users_rows_loop_appends : respects.

(** ** The page numbers a loop requests *)

Lemma issues_same {A} (P : list Z → Prop) (m : M A) :
  P [] → respects same_requests m → issues P m.
Proof.
  intros HP Hm w. exists []. split; [|done].
  unfold Sim.pages. by rewrite (Hm w), app_nil_r.
Qed.

Lemma issues_bind_same {A B} (P : list Z → Prop) (m : M A) (f : A → M B) :
  P [] → respects same_requests m → (∀ a, issues P (f a)) → issues P (m ≫= f).
Proof.
  intros HP Hm Hf w. specialize (Hm w). unfold mbind, M_bind.
  destruct (m w) as [[a| |] w1]; simpl in *.
  - destruct (Hf a w1) as (new & Hnew & HPn). exists new. split; [|done].
    rewrite Hnew. unfold Sim.pages. by rewrite Hm.
  - exists []. split; [|done]. unfold Sim.pages. by rewrite Hm, app_nil_r.
  - exists []. split; [|done]. unfold Sim.pages. by rewrite Hm, app_nil_r.
Qed.

Lemma issues_bind_get {B} (P Q : list Z → Prop) transport u ps (f : json → M B) :
  Q [] →
  (∀ new, Q new → P (Sim.param (Request u ps) "page" 0 :: new)) →
  (∀ a, issues Q (f a)) →
  issues P (GitHubAPI._get transport u ps ≫= f).
Proof.
  intros HQ HP Hf w. unfold mbind, M_bind.
  destruct (GitHubAPI._get transport u ps w) as [o w1] eqn:E.
  apply get_frame in E as [Hr _].
  assert (Sim.pages w1 = Sim.pages w ++ [Sim.param (Request u ps) "page" 0]) as Hp.
  { unfold Sim.pages. by rewrite Hr, fmap_app. }
  destruct o as [a| |]; simpl.
  - destruct (Hf a w1) as (new & Hnew & HQn). exists (Sim.param (Request u ps) "page" 0 :: new).
    split; [|by apply HP]. by rewrite Hnew, Hp, <- app_assoc.
  - exists [Sim.param (Request u ps) "page" 0]. split; [done|by apply HP].
  - exists [Sim.param (Request u ps) "page" 0]. split; [done|by apply HP].
Qed.

Lemma consecutive_S page k : consecutive page (S k) = page :: consecutive (page + 1) k.
Proof.
  unfold consecutive. cbn [seq fmap list_fmap]. f_equal; [lia|].
  rewrite <- seq_shift, <- list_fmap_compose. apply list_fmap_ext.
  intros _ i _. simpl. lia.
Qed.

Ltac issues_steps :=
  repeat first
    [ apply issues_same; [by (exists 0%nat)|]; solve [auto with respects]
    | apply issues_bind_same; [by (exists 0%nat)|solve [auto with respects]|intros ?]
    | match goal with
      | |- issues _ (if ?b then _ else _) => destruct b
      | |- issues _ (match ?o with _ => _ end) => destruct o
      end ].

Section pages.
Variable transport : list request → request → Response.
Variable py_repr : json → string.

(** The user search asks for [page], [page + 1], [page + 2], ... : each
    request after a Success carries the next page number. *)
Lemma users_loop_pages fuel path ps page :
  issues (λ new, ∃ k, new = consecutive page k)
    (users_loop transport py_repr fuel path ps page).
Proof.
  revert ps page. induction fuel as [|fuel IH]; intros ps page; cbn [users_loop].
  { apply issues_same; [by exists 0%nat|auto with respects]. }
  apply issues_bind_get with (Q := λ new, ∃ k, new = consecutive (page + 1) k).
  - by exists 0%nat.
  - intros new [k ->]. exists (S k). rewrite consecutive_S. f_equal.
    unfold Sim.param. simpl. by rewrite lookup_insert_eq.
  - intros response. issues_steps. apply IH.
Qed.

(** The repository search asks for the same page in every request: the one
    recorded in [ps] before the loop. *)
Lemma repos_loop_pages fuel path ps page s t :
  issues (λ new, ∃ k, new = replicate k (Sim.param (Request repos_end_point (Some ps)) "page" 0))
    (repos_loop transport py_repr fuel path ps page s t).
Proof.
  revert page s. induction fuel as [|fuel IH]; intros page s; cbn [repos_loop].
  { case_match; apply issues_same; try (by exists 0%nat); auto with respects. }
  case_match; [|apply issues_same; [by exists 0%nat|auto with respects]].
  apply issues_bind_get
    with (Q := λ new, ∃ k, new = replicate k (Sim.param (Request repos_end_point (Some ps)) "page" 0)).
  - by exists 0%nat.
  - intros new [k ->]. by exists (S k).
  - intros response. issues_steps. apply IH.
Qed.
End pages.

(** ** Rows *)

Lemma writerow_ok py_repr path cols d w :
  map_Forall (λ k _, k ∈ cols) d →
  writerow py_repr path cols d w = (Ok tt, appended path (cells py_repr cols d) w).
Proof. intros H. unfold writerow. by rewrite bool_decide_eq_true_2. Qed.

Lemma appended_file path row w f :
  fs w !! path = Some f → fs (appended path row w) !! path = Some (f ++ [row]).
Proof. intros H. simpl. by rewrite lookup_insert_eq, H. Qed.

Lemma project_cols (cols : list string) (m : gmap string json) :
  map_Forall (λ k _, k ∈ cols) (filter (λ kv, kv.1 ∈ cols) m).
Proof. intros k v Hkv. by apply map_lookup_filter_Some in Hkv as [_ ?]. Qed.

(** Projection keeps the value of every column and nothing else. *)
Lemma project_lookup (cols : list string) (m : gmap string json) k :
  filter (λ kv, kv.1 ∈ cols) m !! k = if decide (k ∈ cols) then m !! k else None.
Proof.
  destruct (filter (λ kv, kv.1 ∈ cols) m !! k) as [v|] eqn:E.
  - apply map_lookup_filter_Some in E as [E Hin]. simpl in Hin. by rewrite decide_True.
  - case_decide as Hin; [|done].
    destruct (m !! k) as [v|] eqn:Em; [|done].
    assert (filter (λ kv, kv.1 ∈ cols) m !! k = Some v) as E'
      by by apply map_lookup_filter_Some.
    congruence.
Qed.

Lemma cells_project py_repr (cols : list string) (m : gmap string json) :
  cells py_repr cols (filter (λ kv, kv.1 ∈ cols) m) = cells py_repr cols m.
Proof.
  unfold cells. apply Forall_fmap_ext, Forall_forall. intros k Hk.
  by rewrite project_lookup, decide_True.
Qed.

Section rows.
Variable py_repr : json → string.

Lemma write_users_ok path items : ∀ w f,
  Forall is_obj items →
  fs w !! path = Some f →
  ∃ w', write_users py_repr path items w = (Ok tt, w')
        ∧ fs w' !! path = Some (f ++ (user_row py_repr <$> items))
        ∧ requests w' = requests w.
Proof.
  induction items as [|item rest IH]; intros w f Hobj Hf.
  { exists w. by rewrite app_nil_r. }
  apply Forall_cons in Hobj as [[m ->] Hrest].
  cbn [write_users project].
  erewrite bind_lift_Ok by reflexivity.
  erewrite bind_Ok by (apply writerow_ok, project_cols).
  destruct (IH (appended path (cells py_repr EGY_USERS_COLS
                                (filter (λ kv, kv.1 ∈ EGY_USERS_COLS) m)) w)
               (f ++ [cells py_repr EGY_USERS_COLS
                        (filter (λ kv, kv.1 ∈ EGY_USERS_COLS) m)]))
    as (w' & Hrun & Hfs & Hreq); [done|by apply appended_file|].
  exists w'. split; [done|]. split; [|done].
  rewrite Hfs, cells_project, fmap_cons, <- app_assoc. done.
Qed.

Lemma repo_data_cols item d :
  repo_data item = Ok d → map_Forall (λ k _, k ∈ REPO_COLS) d.
Proof.
  unfold repo_data. intros H.
  repeat match type of H with
         | (?o ≫= _) = Ok _ => destruct o eqn:?; cbn [mbind outcome_bind] in H; [|done..]
         end.
  injection H as <-. intros k v Hk.
  repeat (apply lookup_insert_Some in Hk as [[<- _]|[_ Hk]];
          [unfold REPO_COLS; set_solver|]).
  by rewrite lookup_empty in Hk.
Qed.

Lemma write_repos_ok path t items : ∀ s w f,
  Forall repo_ok items →
  s < t →
  fs w !! path = Some f →
  ∃ w', write_repos py_repr path items s t w
        = (Ok (Z.min (s + Z.of_nat (length items)) t), w')
        ∧ fs w' !! path
          = Some (f ++ (repo_row py_repr <$> take (Z.to_nat (t - s)) items))
        ∧ requests w' = requests w.
Proof.
  induction items as [|item rest IH]; intros s w f Hok Hs Hf.
  { exists w. cbn [write_repos]. rewrite take_nil, app_nil_r.
    replace (Z.min (s + Z.of_nat (length (@nil json))) t) with s by (cbn [length]; lia).
    done. }
  apply Forall_cons in Hok as [[d Hd] Hrest].
  cbn [write_repos].
  erewrite bind_lift_Ok by exact Hd.
  erewrite bind_Ok by (eapply writerow_ok, repo_data_cols, Hd).
  assert (repo_row py_repr item = cells py_repr REPO_COLS d) as Hrow
    by (unfold repo_row; by rewrite Hd).
  destruct (Z.geb_spec (s + 1) t) as [Hge|Hlt].
  - exists (appended path (cells py_repr REPO_COLS d) w).
    replace (Z.to_nat (t - s)) with 1%nat by lia.
    cbn [take fmap list_fmap length]. rewrite Hrow.
    replace (Z.min (s + Z.of_nat (S (length rest))) t) with (s + 1) by lia.
    repeat split; [by apply appended_file].
  - destruct (IH (s + 1) (appended path (cells py_repr REPO_COLS d) w)
                (f ++ [cells py_repr REPO_COLS d]))
      as (w' & Hrun & Hfs & Hreq); [done|lia|by apply appended_file|].
    exists w'. rewrite Hrun. cbn [length].
    replace (Z.min (s + 1 + Z.of_nat (length rest)) t)
      with (Z.min (s + Z.of_nat (S (length rest))) t) by lia.
    split; [done|].
    split; [|done].
    replace (Z.to_nat (t - s)) with (S (Z.to_nat (t - (s + 1)))) by lia.
    cbn [take]. by rewrite Hfs, fmap_cons, Hrow, <- app_assoc.
Qed.
End rows.

(** ** Runs against the simulated search API *)

Lemma get_search items u ps w :
  GitHubAPI._get (Sim.search_api items) u ps w
  = (Ok (Sim.search_payload items (Sim.param (Request u ps) "per_page" 30)
           (Sim.param (Request u ps) "page" 1)),
     sent (Request u ps) w).
Proof. by apply get_200. Qed.

Lemma truthy_search_payload items pp p : truthy (Sim.search_payload items pp p) = true.
Proof.
  unfold Sim.search_payload, truthy. apply negb_true_iff, bool_decide_eq_false.
  apply insert_non_empty.
Qed.

Lemma search_payload_total_count items pp p :
  getitem (Sim.search_payload items pp p) "total_count"
  = Ok (JNum (Z.of_nat (length items))).
Proof. unfold Sim.search_payload, getitem. by rewrite lookup_insert_eq. Qed.

Lemma search_payload_items items pp p :
  getitem (Sim.search_payload items pp p) "items" ≫= Py.iter
  = Ok (Sim.page_items items pp p).
Proof.
  unfold Sim.search_payload, getitem.
  rewrite lookup_insert_ne by done. by rewrite lookup_insert_eq.
Qed.

Lemma param_lookup u (ps : gmap string json) k d z :
  ps !! k = Some (JNum z) → Sim.param (Request u (Some ps)) k d = z.
Proof. intros H. unfold Sim.param. simpl. by rewrite H. Qed.

Lemma logger_run lvl msg w :
  logger lvl msg w
  = (Ok tt, {| requests := requests w; log := log w ++ [(lvl, msg)]; fs := fs w |}).
Proof. reflexivity. Qed.

Lemma pages_sent req w : Sim.pages (sent req w) = Sim.pages w ++ [Sim.param req "page" 0].
Proof. unfold Sim.pages. simpl. by rewrite fmap_app. Qed.

Section simulated.
Variable py_repr : json → string.
Variable items : list json.

Lemma users_loop_sim path : ∀ fuel page ps w f,
  Forall is_obj items →
  ps !! "per_page" = Some (JNum per_page) →
  1 ≤ page ≤ last_page items →
  (Z.to_nat (last_page items - page) < fuel)%nat →
  fs w !! path = Some f →
  ∃ w', users_loop (Sim.search_api items) py_repr fuel path ps page w = (Ok tt, w')
        ∧ fs w' !! path
          = Some (f ++ (user_row py_repr <$> drop (Z.to_nat ((page - 1) * per_page)) items))
        ∧ Sim.pages w' = Sim.pages w ++ consecutive page (Z.to_nat (last_page items - page + 1)).
Proof.
  induction fuel as [|fuel IH]; intros page ps w f Hobj Hpp Hpage Hfuel Hf; [lia|].
  cbn [users_loop].
  set (ps' := <["page" := JNum page]> ps).
  assert (ps' !! "per_page" = Some (JNum per_page)) as Hpp'
    by (subst ps'; by rewrite lookup_insert_ne).
  assert (ps' !! "page" = Some (JNum page)) as Hpg
    by (subst ps'; by rewrite lookup_insert_eq).
  erewrite bind_Ok by apply get_search.
  rewrite (param_lookup _ _ _ _ _ Hpp'), (param_lookup _ _ _ _ _ Hpg).
  rewrite truthy_search_payload.
  erewrite bind_lift_Ok by apply search_payload_total_count.
  erewrite bind_Ok by apply logger_run.
  erewrite bind_lift_Ok by apply search_payload_items.
  set (w1 := {| requests := _; log := _; fs := _ |}).
  assert (fs w1 !! path = Some f) as Hf1 by done.
  destruct (write_users_ok py_repr path (Sim.page_items items per_page page) w1 f)
    as (w2 & Hrun & Hfs2 & Hreq2); [|done|].
  { unfold Sim.page_items. by apply Forall_take, Forall_drop. }
  erewrite bind_Ok by exact Hrun.
  erewrite bind_Ok by apply logger_run.
  erewrite bind_lift_Ok by reflexivity.
  fold (last_page items).
  set (w3 := {| requests := _; log := _; fs := _ |}).
  assert (Sim.pages w3 = Sim.pages w ++ [page]) as Hp3.
  { rewrite <- (param_lookup users_end_point ps' "page" 0 page Hpg), <- pages_sent.
    unfold Sim.pages. f_equal. subst w3. cbn [requests]. by rewrite Hreq2. }
  unfold Sim.page_items in Hfs2.
  set (k := Z.to_nat ((page - 1) * per_page)) in *.
  assert (per_page = 100) as Hper by done.
  destruct (Z.gtb_spec (page + 1) (last_page items)) as [Hlast|Hmore].
  - (* the last page *)
    rewrite logger_run. eexists. split; [done|]. cbn [fs requests].
    assert (page = last_page items) as Hpl by lia.
    split.
    + subst w3. cbn [fs]. rewrite Hfs2. do 3 f_equal. apply take_ge.
      rewrite length_drop. unfold last_page in *. subst k.
      pose proof (Z.mod_pos_bound (Z.of_nat (length items)) per_page).
      pose proof (Z.div_mod (Z.of_nat (length items)) per_page). lia.
    + change (Sim.pages w3 = Sim.pages w ++ consecutive page (Z.to_nat (last_page items - page + 1))).
      rewrite Hp3. replace (Z.to_nat (last_page items - page + 1)) with 1%nat by lia.
      unfold consecutive. cbn [seq fmap list_fmap]. do 2 f_equal. lia.
  - destruct (IH (page + 1) ps' w3
                (f ++ (user_row py_repr <$> take (Z.to_nat per_page) (drop k items))))
      as (w' & Hrun' & Hfs' & Hp'); [done|done|lia|lia|by subst w3|].
    exists w'. split; [done|]. split.
    + rewrite Hfs', <- app_assoc, <- fmap_app. do 3 f_equal.
      replace (Z.to_nat ((page + 1 - 1) * per_page)) with (k + Z.to_nat per_page)%nat
        by (subst k; lia).
      by rewrite <- drop_drop, take_drop.
    + rewrite Hp', Hp3, <- app_assoc.
      replace (Z.to_nat (last_page items - page + 1)) with (S (Z.to_nat (last_page items - (page + 1) + 1)))
        by lia.
      by rewrite consecutive_S.
Qed.

(** The repository search, whose every request asks for page 1 again. *)
Lemma repos_loop_sim path t ps : ∀ fuel page s w f,
  Forall repo_ok items →
  ps !! "per_page" = Some (JNum per_page) →
  ps !! "page" = Some (JNum 1) →
  0 ≤ s ≤ t →
  t ≤ Z.of_nat (length items) →
  (Z.to_nat (t - s) ≤ fuel)%nat →
  fs w !! path = Some f →
  ∃ w' rows, repos_loop (Sim.search_api items) py_repr fuel path ps page s t w
             = (Ok tt, w')
             ∧ fs w' !! path = Some (f ++ rows)
             ∧ length rows = Z.to_nat (t - s).
Proof.
  induction fuel as [|fuel IH]; intros page s w f Hok Hpp Hpg Hs Ht Hfuel Hf.
  { exists w, []. cbn [repos_loop]. destruct (Z.ltb_spec s t); [lia|].
    rewrite app_nil_r. repeat split; try done. simpl. lia. }
  cbn [repos_loop]. destruct (Z.ltb_spec s t) as [Hlt|Hge].
  2:{ exists w, []. rewrite app_nil_r. repeat split; try done. simpl. lia. }
  erewrite bind_Ok by apply get_search.
  rewrite (param_lookup _ _ _ _ _ Hpp), (param_lookup _ _ _ _ _ Hpg).
  rewrite truthy_search_payload.
  erewrite bind_lift_Ok by apply search_payload_total_count.
  erewrite bind_Ok by apply logger_run.
  erewrite bind_lift_Ok by apply search_payload_items.
  set (w1 := {| requests := _; log := _; fs := _ |}).
  set (page1 := Sim.page_items items per_page 1).
  assert (page1 = take 100 items) as Hpage1 by done.
  destruct (write_repos_ok py_repr path t page1 s w1 f)
    as (w2 & Hrun & Hfs2 & Hreq2); [|done|done|].
  { rewrite Hpage1. by apply Forall_take. }
  erewrite bind_Ok by exact Hrun.
  erewrite bind_Ok by apply logger_run.
  set (s' := Z.min (s + Z.of_nat (length page1)) t).
  set (w3 := {| requests := _; log := _; fs := _ |}).
  assert (s < s' ≤ t) as Hs'.
  { subst s'. rewrite Hpage1, length_take. destruct items; simpl in *; lia. }
  destruct (IH (page + 1) s' w3
              (f ++ (repo_row py_repr <$> take (Z.to_nat (t - s)) page1)))
    as (w' & rows & Hrun' & Hfs' & Hlen); [done|done|done|lia|done|lia|by subst w3|].
  exists w', ((repo_row py_repr <$> take (Z.to_nat (t - s)) page1) ++ rows).
  split; [done|]. split; [by rewrite Hfs', app_assoc|].
  rewrite length_app, length_fmap, length_take, Hlen. subst s'. lia.
Qed.
End simulated.

(** ** Page numbers of the two searches *)

Lemma open_w_same_requests path : respects same_requests (open_w path).
Proof. by intros w. Qed.

Lemma open_w_run path w :
  open_w path w
  = (Ok tt, {| requests := requests w; log := log w; fs := <[path := []]> (fs w) |}).
Proof. reflexivity. Qed.

Lemma write_row_run path row w : write_row path row w = (Ok tt, appended path row w).
Proof. reflexivity. Qed.

(** The user search asks for [start_page], [start_page + 1], ... in turn. *)
Lemma scrap_egy_contributors_pages transport py_repr fuel path start_page w :
  ∃ k, Sim.pages (scrap_egy_contributors transport py_repr fuel path start_page w).2
       = Sim.pages w ++ consecutive start_page k.
Proof.
  assert (issues (λ new, ∃ k, new = consecutive start_page k)
            (scrap_egy_contributors transport py_repr fuel path start_page)) as H.
  { unfold scrap_egy_contributors, writeheader.
    apply issues_bind_same; [by exists 0%nat|apply open_w_same_requests|intros ?].
    apply issues_bind_same; [by exists 0%nat|apply write_row_same_requests|intros ?].
    apply users_loop_pages. }
  destruct (H w) as (new & Hnew & k & Hk). exists k. by rewrite <- Hk.
Qed.

(** The repository search asks for [start_page] in every request. *)
Lemma scrap_non_egy_repos_pages transport py_repr fuel path start_page total_count w :
  ∃ k, Sim.pages (scrap_non_egy_repos transport py_repr fuel path start_page total_count w).2
       = Sim.pages w ++ replicate k start_page.
Proof.
  assert (issues (λ new, ∃ k, new = replicate k
                    (Sim.param (Request repos_end_point (Some (repos_params start_page)))
                       "page" 0))
            (scrap_non_egy_repos transport py_repr fuel path start_page total_count)) as H.
  { unfold scrap_non_egy_repos, writeheader.
    apply issues_bind_same; [by exists 0%nat|apply open_w_same_requests|intros ?].
    apply issues_bind_same; [by exists 0%nat|apply write_row_same_requests|intros ?].
    apply repos_loop_pages. }
  destruct (H w) as (new & Hnew & k & Hk). exists k. rewrite Hnew, Hk. reflexivity.
Qed.

(** C1: the code at the failing input. Against a search API that serves 250
    repositories without failure, the repository search with a target of 250
    gets three Success outcomes and sends page 1 three times: [page] is
    counted up but the request is built from [params], which keeps the start
    page. The 250 rows written are the first page three times over (row 101
    is row 1 again). *)
Theorem repos_search_repeats_page :
  let run := scrap_non_egy_repos (Sim.search_api (Sim.repo_item <$> seq 0 250)) Sim.no_repr
               5 "repos.csv" 1 250 Sim.empty_world in
  run.1 = Ok tt
  ∧ Sim.pages run.2 = [1; 1; 1]
  ∧ Sim.rows_written "repos.csv" run.2 = Some 250%nat
  ∧ ∃ f, fs run.2 !! "repos.csv" = Some f ∧ f !! 1%nat = f !! 101%nat.
Proof.
  repeat split; try (vm_compute; reflexivity).
  eexists. split; vm_compute; reflexivity.
Qed.

(** The sibling loop does advance: the user search against 250 users asks for
    pages 1, 2 and 3. *)
Example users_search_advances :
  let run := scrap_egy_contributors (Sim.search_api (Sim.user_item <$> seq 0 250)) Sim.no_repr
               5 "users.csv" 1 Sim.empty_world in
  run.1 = Ok tt ∧ Sim.pages run.2 = [1; 2; 3]
  ∧ Sim.rows_written "users.csv" run.2 = Some 250%nat.
Proof. repeat split; vm_compute; reflexivity. Qed.

(** ** Row counts *)

Lemma rows_written_header path w header rows :
  fs w !! path = Some (header :: rows) → Sim.rows_written path w = Some (length rows).
Proof. intros H. unfold Sim.rows_written. by rewrite H. Qed.

(** The user search from page 1 against the simulated API: every item is
    written, in order, under the header, and the pages asked for are
    1 .. [total_count // 100 + 1]. *)
Lemma scrap_egy_contributors_sim py_repr items fuel path w :
  Forall is_obj items →
  (Z.to_nat (last_page items) ≤ fuel)%nat →
  ∃ w', scrap_egy_contributors (Sim.search_api items) py_repr fuel path 1 w = (Ok tt, w')
        ∧ fs w' !! path = Some (EGY_USERS_COLS :: (user_row py_repr <$> items))
        ∧ Sim.pages w' = Sim.pages w ++ consecutive 1 (Z.to_nat (last_page items)).
Proof.
  intros Hobj Hfuel. unfold scrap_egy_contributors, writeheader.
  erewrite bind_Ok by apply open_w_run.
  erewrite bind_Ok by apply write_row_run.
  assert (0 ≤ Z.of_nat (length items) `div` per_page) as Hdiv
    by (apply Z.div_pos; [lia|done]).
  destruct (users_loop_sim py_repr items path fuel 1 (users_params 1)
              (appended path EGY_USERS_COLS
                 {| requests := requests w; log := log w; fs := <[path := []]> (fs w) |})
              [EGY_USERS_COLS])
    as (w' & Hrun & Hfs & Hpages); [done|done|unfold last_page; lia|unfold last_page in *; lia| |].
  { simpl. by rewrite !lookup_insert_eq. }
  exists w'. split; [done|]. split; [by rewrite Hfs|].
  rewrite Hpages. do 2 f_equal. lia.
Qed.

(** The repository search from page 1 with a target within the total. *)
Lemma scrap_non_egy_repos_sim py_repr items t fuel path w :
  Forall repo_ok items →
  0 ≤ t ≤ Z.of_nat (length items) →
  (Z.to_nat t ≤ fuel)%nat →
  ∃ w' rows, scrap_non_egy_repos (Sim.search_api items) py_repr fuel path 1 t w = (Ok tt, w')
             ∧ fs w' !! path = Some (REPO_COLS :: rows)
             ∧ length rows = Z.to_nat t.
Proof.
  intros Hok Ht Hfuel. unfold scrap_non_egy_repos, writeheader.
  erewrite bind_Ok by apply open_w_run.
  erewrite bind_Ok by apply write_row_run.
  destruct (repos_loop_sim py_repr items path t (repos_params 1) fuel 1 0
              (appended path REPO_COLS
                 {| requests := requests w; log := log w; fs := <[path := []]> (fs w) |})
              [REPO_COLS])
    as (w' & rows & Hrun & Hfs & Hlen); [done|done|done|lia|lia|lia| |].
  { simpl. by rewrite !lookup_insert_eq. }
  exists w', rows. split; [done|]. split; [done|]. rewrite Hlen. f_equal. lia.
Qed.

(** C2, as amended: against a simulated API without failures and from page
    1, the repository search with a target count [t] no larger than the total
    writes exactly [t = min(totalCount, t)] rows (it stops as soon as the
    count is reached, mid-page if need be), and the user search, which takes
    no target, writes [totalCount] rows. *)
Theorem rows_written_count py_repr path (w : World) :
  (∀ items t fuel,
     Forall repo_ok items →
     0 ≤ t ≤ Z.of_nat (length items) →
     (Z.to_nat t ≤ fuel)%nat →
     let run := scrap_non_egy_repos (Sim.search_api items) py_repr fuel path 1 t w in
     run.1 = Ok tt
     ∧ Sim.rows_written path run.2 = Some (Z.to_nat (Z.min (Z.of_nat (length items)) t)))
  ∧ (∀ items fuel,
       Forall is_obj items →
       (Z.to_nat (last_page items) ≤ fuel)%nat →
       let run := scrap_egy_contributors (Sim.search_api items) py_repr fuel path 1 w in
       run.1 = Ok tt ∧ Sim.rows_written path run.2 = Some (length items)).
Proof.
  split.
  - intros items t fuel Hok Ht Hfuel run.
    destruct (scrap_non_egy_repos_sim py_repr items t fuel path w Hok Ht Hfuel)
      as (w' & rows & Hrun & Hfs & Hlen).
    subst run. rewrite Hrun. split; [done|]. simpl.
    rewrite (rows_written_header _ _ _ _ Hfs), Hlen. f_equal. lia.
  - intros items fuel Hobj Hfuel run.
    destruct (scrap_egy_contributors_sim py_repr items fuel path w Hobj Hfuel)
      as (w' & Hrun & Hfs & _).
    subst run. rewrite Hrun. split; [done|]. simpl.
    by rewrite (rows_written_header _ _ _ _ Hfs), length_fmap.
Qed.

Lemma user_item_obj n : is_obj (Sim.user_item n).
Proof. by eexists. Qed.

Lemma repo_item_ok n : repo_ok (Sim.repo_item n).
Proof. eexists. reflexivity. Qed.

Lemma rows_written_count_witness :
  (let run := scrap_non_egy_repos (Sim.search_api (Sim.repo_item <$> seq 0 5)) Sim.no_repr
                3 "repos.csv" 1 3 Sim.empty_world in
   run.1 = Ok tt
   ∧ Sim.rows_written "repos.csv" run.2
     = Some (Z.to_nat (Z.min (Z.of_nat (length (Sim.repo_item <$> seq 0 5))) 3)))
  ∧ (let run := scrap_egy_contributors (Sim.search_api (Sim.user_item <$> seq 0 5)) Sim.no_repr
                  1 "users.csv" 1 Sim.empty_world in
     run.1 = Ok tt
     ∧ Sim.rows_written "users.csv" run.2 = Some (length (Sim.user_item <$> seq 0 5))).
Proof.
  split.
  - apply (proj1 (rows_written_count Sim.no_repr "repos.csv" Sim.empty_world)
             (Sim.repo_item <$> seq 0 5) 3 3%nat).
    + apply Forall_fmap, Forall_forall. intros n _. apply repo_item_ok.
    + change (0 ≤ 3 ≤ 5). lia.
    + lia.
  - apply (proj2 (rows_written_count Sim.no_repr "users.csv" Sim.empty_world)
             (Sim.user_item <$> seq 0 5) 1%nat).
    + apply Forall_fmap, Forall_forall. intros n _. apply user_item_obj.
    + change (1 ≤ 1)%nat. lia.
Defined.

(** C2, as stated, fails. With 50 repositories in all and a target of 100
    the repository search writes 100 rows, not [min(50, 100)]: nothing in its
    loop looks at the total. And the user search started at page 2 of 150
    users writes the 50 of that page, not 150. *)
Lemma rows_written_not_min :
  (let run := scrap_non_egy_repos (Sim.search_api (Sim.repo_item <$> seq 0 50)) Sim.no_repr
                5 "repos.csv" 1 100 Sim.empty_world in
   run.1 = Ok tt ∧ Sim.rows_written "repos.csv" run.2 = Some 100%nat
   ∧ Sim.rows_written "repos.csv" run.2 ≠ Some (Z.to_nat (Z.min 50 100)))
  ∧ (let run := scrap_egy_contributors (Sim.search_api (Sim.user_item <$> seq 0 150)) Sim.no_repr
                  5 "users.csv" 2 Sim.empty_world in
     run.1 = Ok tt ∧ Sim.rows_written "users.csv" run.2 = Some 50%nat
     ∧ Sim.rows_written "users.csv" run.2 ≠ Some 150%nat).
Proof.
  split; (split; [vm_compute; reflexivity|split; [vm_compute; reflexivity|]]);
    vm_compute; discriminate.
Qed.

(** ** The last page of the user search *)

(** C3: the code at the failing input. With 200 users and 100 to a page the
    ceiling is [ceil(200 / 100) = 2], but the loop computes
    [200 // 100 + 1 = 3] and asks for page 3 as well, which comes back
    empty; the 200 rows are written all the same. *)
Theorem users_search_overshoots :
  let items := Sim.user_item <$> seq 0 200 in
  let run := scrap_egy_contributors (Sim.search_api items) Sim.no_repr
               5 "users.csv" 1 Sim.empty_world in
  run.1 = Ok tt
  ∧ Sim.pages run.2 = [1; 2; 3]
  ∧ Sim.rows_written "users.csv" run.2 = Some 200%nat
  ∧ ceil_div (Z.of_nat (length items)) per_page = 2
  ∧ last_page items = 3.
Proof. repeat split; vm_compute; reflexivity. Qed.

(** The scenario of the claim, 150 users: two pages and 150 rows. *)
Example users_search_150 :
  let items := Sim.user_item <$> seq 0 150 in
  let run := scrap_egy_contributors (Sim.search_api items) Sim.no_repr
               5 "users.csv" 1 Sim.empty_world in
  run.1 = Ok tt
  ∧ Sim.pages run.2 = [1; 2]
  ∧ Sim.rows_written "users.csv" run.2 = Some 150%nat
  ∧ ceil_div (Z.of_nat (length items)) per_page = 2.
Proof. repeat split; vm_compute; reflexivity. Qed.

(** The ceiling and the page the loop stops after agree unless the total is
    a multiple of the page size, where the loop goes one page further. *)
Lemma last_page_ceil items :
  last_page items
  = if Z.of_nat (length items) `mod` per_page =? 0
    then ceil_div (Z.of_nat (length items)) per_page + 1
    else ceil_div (Z.of_nat (length items)) per_page.
Proof.
  unfold last_page, ceil_div, per_page.
  set (n := Z.of_nat (length items)).
  pose proof (Z.div_mod n 100 ltac:(lia)) as Hn.
  pose proof (Z.mod_pos_bound n 100 ltac:(lia)) as Hm.
  destruct (Z.eqb_spec (n `mod` 100) 0) as [E|E].
  - rewrite E in Hn.
    replace (n + 100 - 1) with ((n `div` 100) * 100 + 99) by lia.
    rewrite Z.div_add_l by lia. change (99 `div` 100) with 0. lia.
  - replace (n + 100 - 1) with ((n `div` 100 + 1) * 100 + (n `mod` 100 - 1)) by lia.
    rewrite Z.div_add_l by lia. rewrite (Z.div_small (n `mod` 100 - 1)) by lia. lia.
Qed.

(** ** The sink *)

Lemma open_w_with_file path old w : open_w path (with_file path old w) = open_w path w.
Proof. unfold open_w, with_file. simpl. by rewrite insert_insert_eq. Qed.

Lemma bind_open_w_with_file {A} path old (f : unit → M A) w :
  (open_w path ≫= f) (with_file path old w) = (open_w path ≫= f) w.
Proof. unfold mbind, M_bind. by rewrite open_w_with_file. Qed.

(** Once the sink is open and its header written, a loop that only appends
    leaves the header in front. *)
Lemma header_stays path cols (loop : M unit) w :
  respects (appends path) loop →
  ∃ rows, fs ((open_w path ≫= λ _, writeheader path cols ≫= λ _, loop) w).2 !! path
          = Some (cols :: rows).
Proof.
  intros Hloop. unfold writeheader.
  erewrite bind_Ok by apply open_w_run.
  erewrite bind_Ok by apply write_row_run.
  apply (Hloop _ [cols]). simpl. by rewrite !lookup_insert_eq.
Qed.

(** C10, as amended: the two search collections always, and the per-user
    repository collection whenever it finds its users file (a file other than
    the sink) with at least [from_row - 1] rows in it, open the sink in
    truncating mode and write the header first: the run, its outcome and the
    files it leaves are the same whatever the sink held before, and the sink
    ends as the header followed by the rows of this run. A start page or a
    start row changes what is fetched, not this. *)
Theorem sink_truncated transport py_repr path (w : World) (old : csv_file) :
  (∀ fuel start_page,
     let run := scrap_egy_contributors transport py_repr fuel path start_page in
     run (with_file path old w) = run w
     ∧ ∃ rows, fs (run w).2 !! path = Some (EGY_USERS_COLS :: rows))
  ∧ (∀ fuel start_page total_count,
       let run := scrap_non_egy_repos transport py_repr fuel path start_page total_count in
       run (with_file path old w) = run w
       ∧ ∃ rows, fs (run w).2 !! path = Some (REPO_COLS :: rows))
  ∧ (∀ users_file_path from_row users_file reader,
       users_file_path ≠ path →
       fs w !! users_file_path = Some users_file →
       skip_rows from_row (dict_reader users_file) = Ok reader →
       let run := scrap_repos_file transport py_repr users_file_path path from_row in
       run (with_file path old w) = run w
       ∧ ∃ rows, fs (run w).2 !! path = Some (REPO_COLS :: rows)).
Proof.
  split; [|split].
  - intros fuel start_page run. subst run. unfold scrap_egy_contributors. split.
    + apply bind_open_w_with_file.
    + apply header_stays, users_loop_appends.
  - intros fuel start_page total_count run. subst run. unfold scrap_non_egy_repos. split.
    + apply bind_open_w_with_file.
    + apply header_stays, repos_loop_appends.
  - intros users_file_path from_row users_file reader Hne Hfile Hskip run.
    subst run. unfold scrap_repos_file.
    assert (open_r users_file_path w = (Ok users_file, w)) as Hopen
      by (unfold open_r; by rewrite Hfile).
    assert (open_r users_file_path (with_file path old w)
            = (Ok users_file, with_file path old w)) as Hopen'.
    { unfold open_r, with_file. simpl. by rewrite lookup_insert_ne, Hfile. }
    rewrite (bind_Ok _ _ _ _ _ Hopen), (bind_Ok _ _ _ _ _ Hopen').
    rewrite !(bind_lift_Ok _ _ _ _ Hskip).
    split.
    + apply bind_open_w_with_file.
    + apply header_stays, users_rows_loop_appends.
Qed.

Lemma sink_truncated_witness :
  let w := with_file "users.csv"
             [["login"; "url"]; ["octo"; "https://api.github.com/users/octo"]]
             Sim.empty_world in
  let run := scrap_repos_file
               (Sim.table_api [("https://api.github.com/users/octo/repos", JArr [])])
               Sim.no_repr "users.csv" "repos.csv" None in
  run (with_file "repos.csv" [["stale"; "row"]] w) = run w
  ∧ ∃ rows, fs (run w).2 !! "repos.csv" = Some (REPO_COLS :: rows).
Proof.
  intros w run.
  apply (proj2 (proj2 (sink_truncated
                         (Sim.table_api [("https://api.github.com/users/octo/repos", JArr [])])
                         Sim.no_repr "repos.csv" w [["stale"; "row"]]))
           "users.csv" None
           [["login"; "url"]; ["octo"; "https://api.github.com/users/octo"]]
           (dict_reader [["login"; "url"]; ["octo"; "https://api.github.com/users/octo"]])).
  - discriminate.
  - reflexivity.
  - reflexivity.
Defined.

(** C10, as stated, fails: resumed from row 5 of a users file that has two
    rows, the per-user repository collection raises StopIteration while it
    skips rows, before it opens the sink; and without a users file it raises
    at once. In both runs the rows of the previous run stay in the sink. *)
Lemma sink_left_untouched :
  let stale := [["stale"; "row"]] in
  let users := [["login"; "url"]; ["octo"; "https://api.github.com/users/octo"];
                ["mona"; "https://api.github.com/users/mona"]] in
  (let run := scrap_repos_file (Sim.table_api []) Sim.no_repr "users.csv" "repos.csv" (Some 5)
                (with_file "repos.csv" stale (with_file "users.csv" users Sim.empty_world)) in
   run.1 = Raise StopIteration ∧ fs run.2 !! "repos.csv" = Some stale)
  ∧ (let run := scrap_repos_file (Sim.table_api []) Sim.no_repr "users.csv" "repos.csv" None
                  (with_file "repos.csv" stale Sim.empty_world) in
     run.1 = Raise (FileNotFoundError "users.csv") ∧ fs run.2 !! "repos.csv" = Some stale).
Proof. repeat split; vm_compute; reflexivity. Qed.

(** ** Rows and the schema *)

Lemma getitem_obj_Ok (m : gmap string json) k v :
  getitem (JObj m) k = Ok v → m !! k = Some v.
Proof. unfold getitem. destruct (m !! k); by intros [= ->]. Qed.

Lemma getitem_Ok_obj item k v : getitem item k = Ok v → is_obj item.
Proof. destruct item; try done. by eexists. Qed.

Lemma repo_json_cols row repo d :
  repo_json row repo = Ok d → map_Forall (λ k _, k ∈ REPO_COLS) d.
Proof.
  unfold repo_json. intros H.
  repeat match type of H with
         | (?o ≫= _) = Ok _ => destruct o eqn:?; cbn [mbind outcome_bind] in H; [|done..]
         end.
  injection H as <-. intros k v Hk.
  repeat (apply lookup_insert_Some in Hk as [[<- _]|[_ Hk]];
          [unfold REPO_COLS; set_solver|]).
  by rewrite lookup_empty in Hk.
Qed.

(** What [repo_data] puts under each column. *)
Lemma repo_data_fields item d :
  repo_data item = Ok d →
  ∃ m, item = JObj m
       ∧ (∀ col key, (col, key) ∈ search_columns →
                     d !! col = Some (default JNull (m !! key)))
       ∧ (∃ owner login, m !! "owner" = Some owner ∧ getitem owner "login" = Ok login
                         ∧ d !! "login" = Some login)
       ∧ (∃ topics, join_json ", " (default (JArr []) (m !! "topics")) = Ok topics
                    ∧ d !! "topics" = Some (JStr topics))
       ∧ (∃ cell, d !! "license" = Some cell ∧ license_with Py.get m cell).
Proof.
  unfold repo_data. intros H.
  destruct (getitem item "owner") as [owner| |] eqn:Howner; [|done..].
  destruct (getitem_Ok_obj _ _ _ Howner) as [m ->].
  apply getitem_obj_Ok in Howner.
  cbn [mbind outcome_bind] in H.
  destruct (getitem owner "login") as [login| |] eqn:Hlogin; [|done..].
  cbn [mbind outcome_bind] in H.
  destruct (getitem (JObj m) "name") as [name| |] eqn:Hname; [|done..].
  apply getitem_obj_Ok in Hname. cbn [mbind outcome_bind] in H.
  destruct (getitem (JObj m) "html_url") as [html_url| |] eqn:Hurl; [|done..].
  apply getitem_obj_Ok in Hurl. cbn [mbind outcome_bind] in H.
  unfold Py.get, get_default in H. cbn [mbind outcome_bind] in H.
  destruct (join_json ", " (default (JArr []) (m !! "topics"))) as [topics| |] eqn:Htopics;
    [|done..].
  cbn [mbind outcome_bind] in H.
  assert (∃ cell, license_with Py.get m cell
                  ∧ (if truthy (default JNull (m !! "license"))
                     then match default (JObj ∅) (m !! "license") with
                          | JObj m0 => Ok (default JNull (m0 !! "name"))
                          | _ => Raise AttributeError
                          end
                     else Ok JNull) = Ok cell) as (cell & Hlic & Hcell).
  { unfold license_with. destruct (m !! "license") as [lic|] eqn:El; simpl in *.
    - destruct (truthy lic) eqn:Et.
      + destruct lic as [| | | | |l]; try done. simpl in *. eauto.
      + eauto.
    - eauto. }
  rewrite Hcell in H. cbn [mbind outcome_bind] in H. injection H as <-.
  exists m. split; [done|]. split; [|split; [|split]].
  - intros col key Hin. unfold search_columns in Hin.
    repeat (apply elem_of_cons in Hin as [[= -> ->]|Hin];
            [first [by rewrite ?Hname, ?Hurl|reflexivity]|]).
    by apply elem_of_nil in Hin.
  - exists owner, login. by repeat split.
  - exists topics. by split.
  - exists cell. by split.
Qed.

(** What [repo_json] puts under each column. *)
Lemma repo_json_fields row repo d :
  repo_json row repo = Ok d →
  ∃ m, repo = JObj m
       ∧ (∀ col key, (col, key) ∈ user_repo_columns →
                     is_Some (m !! key) ∧ d !! col = m !! key)
       ∧ is_Some (row !! "login") ∧ d !! "login" = row !! "login"
       ∧ (∃ language, m !! "language" = Some language
                      ∧ d !! "language"
                        = Some (if eq_str language "Jupyter Notebook"
                                then JStr "Python" else language))
       ∧ (∃ v topics, m !! "topics" = Some v ∧ join_json ", " v = Ok topics
                      ∧ d !! "topics" = Some (JStr topics))
       ∧ (∃ cell, d !! "license" = Some cell ∧ license_with getitem m cell).
Proof.
  unfold repo_json. intros H.
  destruct (getitem (JObj row) "login") as [login| |] eqn:Hlogin; [|done..].
  apply getitem_obj_Ok in Hlogin. cbn [mbind outcome_bind] in H.
  destruct (getitem repo "name") as [name| |] eqn:Hname; [|done..].
  destruct (getitem_Ok_obj _ _ _ Hname) as [m ->].
  apply getitem_obj_Ok in Hname. cbn [mbind outcome_bind] in H.
  destruct (getitem (JObj m) "html_url") as [html_url| |] eqn:Hurl; [|done..].
  apply getitem_obj_Ok in Hurl. cbn [mbind outcome_bind] in H.
  destruct (getitem (JObj m) "description") as [description| |] eqn:Hdesc; [|done..].
  apply getitem_obj_Ok in Hdesc. cbn [mbind outcome_bind] in H.
  destruct (getitem (JObj m) "language") as [language| |] eqn:Hlang; [|done..].
  cbn [mbind outcome_bind] in H.
  assert ((if eq_str language "Jupyter Notebook" then Ok (JStr "Python")
           else Ok language)
          = Ok (if eq_str language "Jupyter Notebook" then JStr "Python" else language))
    as Hl by (by destruct (eq_str _ _)).
  rewrite Hl in H. clear Hl. apply getitem_obj_Ok in Hlang.
  cbn [mbind outcome_bind] in H.
  destruct (getitem (JObj m) "topics") as [v| |] eqn:Htv; [|done..].
  apply getitem_obj_Ok in Htv. cbn [mbind outcome_bind] in H.
  destruct (join_json ", " v) as [topics| |] eqn:Htopics; [|done..].
  cbn [mbind outcome_bind] in H.
  destruct (getitem (JObj m) "stargazers_count") as [stars| |] eqn:Hstars; [|done..].
  apply getitem_obj_Ok in Hstars. cbn [mbind outcome_bind] in H.
  destruct (getitem (JObj m) "forks_count") as [forks| |] eqn:Hforks; [|done..].
  apply getitem_obj_Ok in Hforks. cbn [mbind outcome_bind] in H.
  destruct (getitem (JObj m) "open_issues_count") as [issues| |] eqn:Hissues; [|done..].
  apply getitem_obj_Ok in Hissues. cbn [mbind outcome_bind] in H.
  destruct (getitem (JObj m) "updated_at") as [updated| |] eqn:Hupd; [|done..].
  apply getitem_obj_Ok in Hupd. cbn [mbind outcome_bind] in H.
  assert (∃ cell, license_with getitem m cell
                  ∧ match m !! "license" with
                    | Some lic => if truthy lic then getitem lic "name" else Ok JNull
                    | None => Ok JNull
                    end = Ok cell) as (cell & Hlic & Hcell).
  { unfold license_with. destruct (m !! "license") as [lic|] eqn:El.
    - destruct (truthy lic) eqn:Et; [|by eauto].
      destruct (getitem lic "name") as [c| |] eqn:Ec; try done. eauto.
    - eauto. }
  rewrite Hcell in H. cbn [mbind outcome_bind] in H. injection H as <-.
  exists m. split; [done|]. split; [|split; [|split; [|split; [|split]]]].
  - intros col key Hin. unfold user_repo_columns in Hin.
    repeat (apply elem_of_cons in Hin as [[= -> ->]|Hin];
            [first [by rewrite Hname|by rewrite Hurl|by rewrite Hdesc|by rewrite Hstars
                   |by rewrite Hforks|by rewrite Hissues|by rewrite Hupd]|]).
    by apply elem_of_nil in Hin.
  - by rewrite Hlogin.
  - by rewrite Hlogin.
  - exists language. by split.
  - exists v, topics. by repeat split.
  - exists cell. by split.
Qed.

(** C7, as amended. The user search writes, for an item, the item projected
    on the columns login and url: each cell is the payload value of that
    column, empty when the item lacks it, and nothing else is written. The two
    repository collections build the row column by column: repo_name,
    repo_html_url, repo_description and last_repo_commit_date carry the
    payload's name, html_url, description and updated_at, the three counts
    carry the keys of the same names, login is the owner's login (search) or
    the login of the users row (per user), topics is the payload's topics
    joined with a comma and a space, license is the name of the payload's
    license or absent, and language is the payload's language, except that
    the per-user collection writes Python for Jupyter Notebook. *)
Theorem rows_by_schema py_repr path (w : World) (f : csv_file) :
  fs w !! path = Some f →
  (∀ m, ∃ w', write_users py_repr path [JObj m] w = (Ok tt, w')
              ∧ fs w' !! path = Some (f ++ [cells py_repr EGY_USERS_COLS m]))
  ∧ (∀ item d,
       repo_data item = Ok d →
       (∃ w', write_repos py_repr path [item] 0 1 w = (Ok 1, w')
              ∧ fs w' !! path = Some (f ++ [cells py_repr REPO_COLS d]))
       ∧ ∃ m, item = JObj m
              ∧ (∀ col key, (col, key) ∈ search_columns →
                            d !! col = Some (default JNull (m !! key)))
              ∧ (∃ owner login, m !! "owner" = Some owner
                                ∧ getitem owner "login" = Ok login
                                ∧ d !! "login" = Some login)
              ∧ (∃ topics, join_json ", " (default (JArr []) (m !! "topics")) = Ok topics
                           ∧ d !! "topics" = Some (JStr topics))
              ∧ (∃ cell, d !! "license" = Some cell ∧ license_with Py.get m cell))
  ∧ (∀ row repo d,
       repo_json row repo = Ok d →
       (∃ w', write_user_repos py_repr path row [repo] w = (Ok tt, w')
              ∧ fs w' !! path = Some (f ++ [cells py_repr REPO_COLS d]))
       ∧ ∃ m, repo = JObj m
              ∧ (∀ col key, (col, key) ∈ user_repo_columns →
                            is_Some (m !! key) ∧ d !! col = m !! key)
              ∧ is_Some (row !! "login") ∧ d !! "login" = row !! "login"
              ∧ (∃ language, m !! "language" = Some language
                             ∧ d !! "language"
                               = Some (if eq_str language "Jupyter Notebook"
                                       then JStr "Python" else language))
              ∧ (∃ v topics, m !! "topics" = Some v ∧ join_json ", " v = Ok topics
                             ∧ d !! "topics" = Some (JStr topics))
              ∧ (∃ cell, d !! "license" = Some cell ∧ license_with getitem m cell)).
Proof.
  intros Hf. split; [|split].
  - intros m.
    destruct (write_users_ok py_repr path [JObj m] w f) as (w' & Hrun & Hfs & _);
      [|done|by eauto].
    constructor; [by eexists|constructor].
  - intros item d Hd. split; [|by apply repo_data_fields].
    destruct (write_repos_ok py_repr path 1 [item] 0 w f) as (w' & Hrun & Hfs & _);
      [|lia|done|].
    { constructor; [by exists d|constructor]. }
    exists w'. split; [done|]. rewrite Hfs. unfold repo_row. simpl. by rewrite Hd.
  - intros row repo d Hd. split; [|by apply repo_json_fields].
    cbn [write_user_repos].
    erewrite bind_lift_Ok by exact Hd.
    erewrite bind_Ok by (eapply writerow_ok, repo_json_cols, Hd).
    erewrite bind_Ok by apply logger_run.
    eexists. split; [reflexivity|]. by apply appended_file.
Qed.

Lemma rows_by_schema_witness :
  let w := with_file "repos.csv" [REPO_COLS] Sim.empty_world in
  ∃ w', write_user_repos Sim.no_repr "repos.csv" Inputs.octo_row [Inputs.notebook_repo] w
        = (Ok tt, w')
        ∧ fs w' !! "repos.csv"
          = Some [REPO_COLS;
                  ["octo"; "analysis"; "https://github.com/octo/analysis"; "Python";
                   "data, egypt"; ""; "0"; "2"; "7"; "2024-05-01T10:00:00Z"; "MIT License"]].
Proof.
  intros w.
  destruct (proj2 (proj2 (rows_by_schema Sim.no_repr "repos.csv" w [REPO_COLS] eq_refl))
              Inputs.octo_row Inputs.notebook_repo _ eq_refl) as [Hrow _].
  exact Hrow.
Defined.

(** C7, as stated, fails. The per-user collection writes Python in the
    language column of a repository whose payload says Jupyter Notebook; the
    repository search fills repo_name and login from the payload's name and
    owner, not from the payload values under those column names, and leaves
    last_repo_commit_date empty when the payload has no updated_at. *)
Lemma rows_not_verbatim :
  (let w := with_file "repos.csv" [] Sim.empty_world in
   let run := write_user_repos Sim.no_repr "repos.csv" Inputs.octo_row
                [Inputs.notebook_repo] w in
   getitem Inputs.notebook_repo "language" = Ok (JStr "Jupyter Notebook")
   ∧ fs run.2 !! "repos.csv"
     = Some [["octo"; "analysis"; "https://github.com/octo/analysis"; "Python";
              "data, egypt"; ""; "0"; "2"; "7"; "2024-05-01T10:00:00Z"; "MIT License"]])
  ∧ (let w := with_file "repos.csv" [] Sim.empty_world in
     let run := write_repos Sim.no_repr "repos.csv" [Inputs.search_item] 0 1 w in
     getitem Inputs.search_item "repo_name" = Ok (JStr "not-the-name")
     ∧ getitem Inputs.search_item "login" = Ok (JStr "not-the-owner")
     ∧ fs run.2 !! "repos.csv"
       = Some [["torvalds"; "linux"; "https://github.com/torvalds/linux"; "C";
                "kernel"; ""; ""; ""; "150000"; ""; ""]]).
Proof. repeat split; vm_compute; reflexivity. Qed.

(** * Further properties *)

(** ** Non-Success answers *)



(** X1: the handler logs nothing for a 200 and nothing when it raises; for
    every other status it logs one record, a warning for 403, an info for
    204 and an error otherwise. *)
Theorem handle_api_errors_severity (r : Response) (w : World) :
  let run := GitHubAPI._handle_api_errors r w in
  (log run.2).*1
  = (log w).*1
    ++ match run.1 with
       | Ok _ => if status_code r =? 200 then []
                 else if status_code r =? 403 then [WARNING]
                 else if status_code r =? 204 then [INFO] else [ERROR]
       | _ => []
       end.
Proof.
  intros run. subst run. unfold GitHubAPI._handle_api_errors.
  destruct (Z.eqb_spec (status_code r) 200) as [E|_].
  { destruct (body r); simpl; by rewrite app_nil_r. }
  destruct (Z.eqb_spec (status_code r) 403) as [E|N403].
  { destruct (headers r !! lower "X-RateLimit-Reset") as [reset|]; simpl;
      [|by rewrite app_nil_r].
    destruct (parse_int reset); simpl; [by rewrite fmap_app|by rewrite app_nil_r]. }
  destruct (Z.eqb_spec (status_code r) 404) as [E|_]; [simpl; by rewrite fmap_app, E|].
  destruct (Z.eqb_spec (status_code r) 451) as [E|_]; [simpl; by rewrite fmap_app, E|].
  destruct (Z.eqb_spec (status_code r) 401) as [E|_]; [simpl; by rewrite fmap_app, E|].
  destruct (Z.eqb_spec (status_code r) 204) as [E|_]; [simpl; by rewrite fmap_app|].
  destruct (Z.eqb_spec (status_code r) 409) as [E|_]; simpl; by rewrite fmap_app.
Qed.




(** X3: with a target count of zero or less the repository search sends no
    request at all; it still truncates the sink and writes the header. *)
Theorem no_target_no_request transport py_repr fuel path start_page total_count (w : World) :
  total_count ≤ 0 →
  ∃ w', scrap_non_egy_repos transport py_repr fuel path start_page total_count w
        = (Ok tt, w')
        ∧ requests w' = requests w
        ∧ fs w' !! path = Some [REPO_COLS].
Proof.
  intros Hle. unfold scrap_non_egy_repos, writeheader.
  erewrite bind_Ok by apply open_w_run.
  erewrite bind_Ok by apply write_row_run.
  eexists. split.
  - destruct fuel; cbn [repos_loop]; by destruct (Z.ltb_spec 0 total_count); [lia|].
  - simpl. by rewrite !lookup_insert_eq.
Qed.

Lemma no_target_no_request_witness :
  ∃ w', scrap_non_egy_repos (Sim.search_api []) Sim.no_repr 0 "repos.csv" 1 0
          Sim.empty_world = (Ok tt, w')
        ∧ requests w' = []
        ∧ fs w' !! "repos.csv" = Some [REPO_COLS].
Proof.
  apply (no_target_no_request (Sim.search_api []) Sim.no_repr 0 "repos.csv" 1 0
           Sim.empty_world).
  lia.
Defined.

(** ** CI tool detection and the repository URL *)

Lemma lower_ascii_not_J c : lower_ascii c ≠ "J"%char.
Proof.
  unfold lower_ascii. intros H.
  destruct c as [[] [] [] [] [] [] [] []]; vm_compute in H; discriminate.
Qed.

(** X4: the detector never answers Jenkins: it compares the lower-cased file
    name with ["Jenkinsfile"], which has a capital. *)
Theorem ci_cd_tool_never_jenkins (r : gmap string json) :
  RepoExtractor._get_ci_cd_tool r ≠ Ok (JStr "Jenkins").
Proof.
  unfold RepoExtractor._get_ci_cd_tool.
  destruct (getitem (JObj r) "filenames" ≫= Py.iter) as [l| |]; simpl; [|done..].
  destruct l as [|[| | |f| |] l]; try done.
  unfold RepoExtractor.ci_cd_of. intros [= H].
  repeat case_match; try discriminate.
  match goal with
  | E : (lower f =? "Jenkinsfile")%string = true |- _ => apply String.eqb_eq in E; rename E into HJ
  end.
  destruct f as [|c f]; [done|]. simpl in HJ. injection HJ as HJ _.
  by apply lower_ascii_not_J in HJ.
Qed.

Lemma split_no_sep_id sep s : has_char sep s = false → Py.split sep s = [s].
Proof.
  induction s as [|c s IH]; [done|]. simpl.
  destruct (Ascii.eqb_spec c sep) as [|N]; [done|]. simpl. intros H.
  by rewrite (IH H).
Qed.

Lemma split_app_sep sep a b :
  Py.split sep (a +:+ String sep b) = Py.split sep a ++ Py.split sep b.
Proof.
  induction a as [|c a IH].
  - change ("" +:+ String sep b) with (String sep b). simpl.
    by rewrite Ascii.eqb_refl.
  - rewrite append_cons. simpl. rewrite IH.
    destruct (Ascii.eqb c sep); [done|].
    destruct (Py.split sep a) as [|h t] eqn:E; [by destruct (split_nonempty sep a)|done].
Qed.

(** The last two components of [prefix/owner/name]. *)
Lemma split_owner_name pre owner name :
  has_char "/" owner = false → has_char "/" name = false →
  second_last_item (Py.split "/" (pre +:+ "/" +:+ owner +:+ "/" +:+ name)) = Some owner
  ∧ last_item (Py.split "/" (pre +:+ "/" +:+ owner +:+ "/" +:+ name)) = Some name.
Proof.
  intros Ho Hn.
  change (pre +:+ "/" +:+ owner +:+ "/" +:+ name)
    with (pre +:+ String "/" (owner +:+ String "/" name)).
  rewrite !split_app_sep, (split_no_sep_id _ _ Ho), (split_no_sep_id _ _ Hn).
  unfold second_last_item, last_item. rewrite !rev_app_distr, last_app. simpl.
  split; reflexivity.
Qed.

(** X5: for a row whose [repo_html_url] ends in [/owner/name], the extractor is
    set up on [https://api.github.com/repos/owner/name]; a URL without a
    slash raises IndexError and a row without the column raises KeyError. *)
Theorem init_base_url (r : gmap string json) :
  (∀ pre owner name,
     r !! "repo_html_url" = Some (JStr (pre +:+ "/" +:+ owner +:+ "/" +:+ name)) →
     has_char "/" owner = false → has_char "/" name = false →
     RepoExtractor.init r
     = Ok {| RepoExtractor.row := r;
             RepoExtractor.base_url
             := "https://api.github.com/repos/" +:+ owner +:+ "/" +:+ name |})
  ∧ (∀ s, r !! "repo_html_url" = Some (JStr s) → has_char "/" s = false →
          RepoExtractor.init r = Raise IndexError)
  ∧ (r !! "repo_html_url" = None →
     RepoExtractor.init r = Raise (KeyError "repo_html_url")).
Proof.
  split; [|split].
  - intros pre owner name Hr Ho Hn. unfold RepoExtractor.init, getitem.
    rewrite Hr. simpl.
    destruct (split_owner_name pre owner name Ho Hn) as [-> ->]. done.
  - intros s Hr Hs. unfold RepoExtractor.init, getitem. rewrite Hr. simpl.
    by rewrite (split_no_sep_id _ _ Hs).
  - intros Hr. unfold RepoExtractor.init, getitem. by rewrite Hr.
Qed.

Lemma init_base_url_witness :
  RepoExtractor.init Inputs.candidate
  = Ok {| RepoExtractor.row := Inputs.candidate;
          RepoExtractor.base_url := "https://api.github.com/repos/" +:+ "octo" +:+ "/" +:+ "demo" |}.
Proof.
  apply (proj1 (init_base_url Inputs.candidate) "https://github.com" "octo" "demo");
    reflexivity.
Defined.

(** ** The target count is never exceeded *)

Lemma writerow_file py_repr path cols d w r w' f :
  writerow py_repr path cols d w = (r, w') →
  fs w !! path = Some f →
  (r = Ok tt ∧ fs w' !! path = Some (f ++ [cells py_repr cols d]))
  ∨ (r = Raise ValueError ∧ w' = w).
Proof.
  unfold writerow. case_bool_decide.
  - rewrite write_row_run. intros [= <- <-] Hf. left. split; [done|].
    by apply appended_file.
  - intros [= <- <-] _. by right.
Qed.

(** The rows one page adds: no more than the target still allows, and
    counted exactly by [repos_scraped]. *)
Lemma write_repos_bound py_repr path t items : ∀ s w r w' f,
  s < t →
  write_repos py_repr path items s t w = (r, w') →
  fs w !! path = Some f →
  ∃ rows, fs w' !! path = Some (f ++ rows)
          ∧ Z.of_nat (length rows) ≤ t - s
          ∧ ∀ s', r = Ok s' → s' = s + Z.of_nat (length rows).
Proof.
  induction items as [|item rest IH]; intros s w r w' f Hs H Hf.
  { cbn [write_repos] in H. mdone H. exists []. rewrite app_nil_r.
    repeat split; [done|simpl; lia|]. intros ? [= <-]. simpl. lia. }
  cbn [write_repos] in H.
  destruct (repo_data item) as [d| |] eqn:Hd; mred H.
  2,3: simplify_eq; exists []; rewrite app_nil_r; repeat split; [done|simpl; lia|done].
  destruct (writerow py_repr path REPO_COLS d w) as [r1 w1] eqn:Hw.
  destruct (writerow_file _ _ _ _ _ _ _ _ Hw Hf) as [[-> Hf1]|[-> ->]].
  2:{ simplify_eq. exists []. rewrite app_nil_r. repeat split; [done|simpl; lia|done]. }
  destruct (Z.geb_spec (s + 1) t) as [Hge|Hlt].
  - simplify_eq. exists [cells py_repr REPO_COLS d].
    repeat split; [done|simpl; lia|]. intros ? [= <-]. simpl. lia.
  - destruct (IH (s + 1) w1 r w' _ Hlt H Hf1) as (rows & Hfs & Hlen & Hres).
    exists (cells py_repr REPO_COLS d :: rows).
    split; [by rewrite Hfs, <- app_assoc|]. split; [simpl; lia|].
    intros s' Hr. rewrite (Hres s' Hr). simpl. lia.
Qed.

Lemma repos_loop_bound transport py_repr path ps t : ∀ fuel page s w f,
  fs w !! path = Some f →
  ∃ rows, fs (repos_loop transport py_repr fuel path ps page s t w).2 !! path
          = Some (f ++ rows)
          ∧ Z.of_nat (length rows) ≤ Z.max 0 (t - s).
Proof.
  induction fuel as [|fuel IH]; intros page s w f Hf.
  { exists []. rewrite app_nil_r. cbn [repos_loop].
    split; [by destruct (s <? t)|simpl; lia]. }
  destruct (repos_loop transport py_repr (S fuel) path ps page s t w) as [r w'] eqn:H.
  cbn [snd]. cbn [repos_loop] in H.
  assert (∀ w0 : World, fs w0 = fs w →
            ∃ rows, fs w0 !! path = Some (f ++ rows)
                    ∧ Z.of_nat (length rows) ≤ Z.max 0 (t - s)) as Hstop.
  { intros w0 ->. exists []. rewrite app_nil_r. split; [done|simpl; lia]. }
  destruct (Z.ltb_spec s t) as [Hlt|Hge]; [|mdone H; by apply Hstop].
  minv H; [|by apply get_frame in Hm as [_ ?]; apply Hstop..].
  apply get_frame in Hm as [_ Hfs1].
  destruct (truthy a); [|mdone H; by apply Hstop].
  minv H; [|mdone Hm; by apply Hstop..]. mdone Hm.
  minv H; [|mdone Hm; by apply Hstop..]. mdone Hm.
  minv H; [|mdone Hm; by apply Hstop..]. mdone Hm.
  set (w2 := {| requests := _; log := _; fs := _ |}) in *.
  assert (fs w2 !! path = Some f) as Hf2 by (subst w2; simpl; by rewrite Hfs1).
  minv H.
  - destruct (write_repos_bound _ _ _ _ _ _ _ _ _ Hlt Hm Hf2) as (rows1 & Hfs3 & Hlen1 & Hs').
    specialize (Hs' _ eq_refl). minv H; [|mdone Hm0..]. mdone Hm0.
    lazymatch type of H with
    | repos_loop _ _ _ _ _ _ ?s' _ ?w4 = _ =>
        destruct (IH (page + 1) s' w4 (f ++ rows1)) as (rows2 & Hfs5 & Hlen2); [done|]
    end.
    rewrite H in Hfs5. cbn [snd] in Hfs5.
    exists (rows1 ++ rows2). split; [by rewrite Hfs5, app_assoc|].
    rewrite length_app. lia.
  - destruct (write_repos_bound _ _ _ _ _ _ _ _ _ Hlt Hm Hf2) as (rows1 & Hfs3 & Hlen1 & _).
    exists rows1. split; [done|lia].
  - destruct (write_repos_bound _ _ _ _ _ _ _ _ _ Hlt Hm Hf2) as (rows1 & Hfs3 & Hlen1 & _).
    exists rows1. split; [done|lia].
Qed.

(** X6: the repository search never writes more rows than its target count,
    whatever the API answers and however the run ends; the rows follow the
    header. *)
Theorem target_never_exceeded transport py_repr fuel path start_page total_count (w : World) :
  ∃ rows,
    fs (scrap_non_egy_repos transport py_repr fuel path start_page total_count w).2 !! path
    = Some (REPO_COLS :: rows)
    ∧ Z.of_nat (length rows) ≤ Z.max 0 total_count.
Proof.
  unfold scrap_non_egy_repos, writeheader.
  erewrite bind_Ok by apply open_w_run.
  erewrite bind_Ok by apply write_row_run.
  destruct (repos_loop_bound transport py_repr path (repos_params start_page) total_count
              fuel start_page 0
              (appended path REPO_COLS
                 {| requests := requests w; log := log w; fs := <[path := []]> (fs w) |})
              [REPO_COLS])
    as (rows & Hfs & Hlen).
  { simpl. by rewrite !lookup_insert_eq. }
  exists rows. split; [done|]. by rewrite Z.sub_0_r in Hlen.
Qed.

(** ** The loops only append *)

(** X7: once a loop runs on an open sink, the rows already in the sink stay
    as they are and new rows only follow them, whatever the API answers and
    whether the loop ends normally, raises or runs out of fuel. *)
Theorem sink_only_grows transport py_repr path (w : World) (f : csv_file) :
  fs w !! path = Some f →
  (∀ fuel ps page,
     ∃ rows, fs (users_loop transport py_repr fuel path ps page w).2 !! path
             = Some (f ++ rows))
  ∧ (∀ fuel ps page s t,
       ∃ rows, fs (repos_loop transport py_repr fuel path ps page s t w).2 !! path
               = Some (f ++ rows))
  ∧ (∀ i reader,
       ∃ rows, fs (users_rows_loop transport py_repr path i reader w).2 !! path
               = Some (f ++ rows)).
Proof.
  intros Hf. split; [|split].
  - intros fuel ps page. by apply users_loop_appends.
  - intros fuel ps page s t. by apply repos_loop_appends.
  - intros i reader. by apply users_rows_loop_appends.
Qed.

Lemma sink_only_grows_witness :
  ∃ rows, fs (users_loop (Sim.search_api (Sim.user_item <$> seq 0 3)) Sim.no_repr 2
                "users.csv" (users_params 1) 1
                (with_file "users.csv" [EGY_USERS_COLS; ["old"; "row"]] Sim.empty_world)).2
          !! "users.csv"
          = Some ([EGY_USERS_COLS; ["old"; "row"]] ++ rows).
Proof.
  apply (proj1 (sink_only_grows (Sim.search_api (Sim.user_item <$> seq 0 3)) Sim.no_repr
                  "users.csv"
                  (with_file "users.csv" [EGY_USERS_COLS; ["old"; "row"]] Sim.empty_world)
                  [EGY_USERS_COLS; ["old"; "row"]] eq_refl)).
Defined.

Lemma dict_reader_user_rows py_repr items :
  dict_reader (EGY_USERS_COLS :: (user_row py_repr <$> items)) = read_back py_repr <$> items.
Proof.
  unfold dict_reader. induction items as [|item rest IH]; [done|].
  rewrite !fmap_cons. rewrite filter_cons_True by done.
  rewrite fmap_cons, IH. f_equal.
Qed.

(** X8: the users file that the user search writes is read back by the
    reader of [scrap_repos_file] as one row per item and in the same order
    (no row is skipped), with [login] and [url] the text of the item's login
    and url. *)
Theorem users_file_read_back py_repr items fuel path (w : World) :
  Forall is_obj items →
  (Z.to_nat (last_page items) ≤ fuel)%nat →
  ∃ w' f, scrap_egy_contributors (Sim.search_api items) py_repr fuel path 1 w = (Ok tt, w')
          ∧ open_r path w' = (Ok f, w')
          ∧ dict_reader f = read_back py_repr <$> items.
Proof.
  intros Hobj Hfuel.
  destruct (scrap_egy_contributors_sim py_repr items fuel path w Hobj Hfuel)
    as (w' & Hrun & Hfs & _).
  exists w', (EGY_USERS_COLS :: (user_row py_repr <$> items)).
  split; [done|]. split; [unfold open_r, csv_file in *; cbv beta; by rewrite Hfs|].
  apply dict_reader_user_rows.
Qed.

Lemma users_file_read_back_witness :
  ∃ w' f, scrap_egy_contributors (Sim.search_api (Sim.user_item <$> seq 0 3)) Sim.no_repr 1
            "users.csv" 1 Sim.empty_world = (Ok tt, w')
          ∧ open_r "users.csv" w' = (Ok f, w')
          ∧ dict_reader f = read_back Sim.no_repr <$> (Sim.user_item <$> seq 0 3).
Proof.
  apply (users_file_read_back Sim.no_repr (Sim.user_item <$> seq 0 3) 1 "users.csv"
           Sim.empty_world).
  - apply Forall_fmap, Forall_forall. intros n _. apply user_item_obj.
  - change (1 ≤ 1)%nat. lia.
Defined.

(** ** The per-user repository collection, user by user *)





(** ** The walk of a whole tree *)




Section whole_tree.
Variable transport : list request → request → Response.
Variable self : RepoExtractor.extractor.


Lemma foldr_serves_children children :
  foldr (λ c P, serves transport self c ∧ P) True children →
  Forall (serves transport self) children.
Proof. induction children as [|c cs IH]; [done|]. intros [??]. constructor; auto. Qed.


End whole_tree.



(** ** The contributor filter *)

Lemma bind_inv_Ok {A B} (m : M A) (f : A → M B) w b w' :
  (m ≫= f) w = (Ok b, w') → ∃ a w1, m w = (Ok a, w1) ∧ f a w1 = (Ok b, w').
Proof.
  intros H. apply bind_inv in H as [(a & w1 & H1 & H) | [(e & _ & ?) | [_ ?]]];
    [eauto|done|done].
Qed.

Lemma lift_inv_Ok {A} (o : outcome A) w a w' : lift o w = (Ok a, w') → o = Ok a ∧ w' = w.
Proof. by intros [= -> ->]. Qed.


Lemma egyptian_contributors_lacking transport py_repr conts :
  Forall (lacks "repo_html_url") conts →
  ∀ w found w',
    egyptian_contributors transport py_repr conts w = (Ok found, w') → found = [].
Proof.
  induction 1 as [|cont conts Hlacks _ IH]; intros w found w' H;
    cbn [egyptian_contributors] in H.
  { by injection H as <- _. }
  apply bind_inv_Ok in H as (user_name & w1 & _ & H).
  apply bind_inv_Ok in H as (cont_prof & w2 & _ & H).
  apply bind_inv_Ok in H as (location & w3 & _ & H).
  apply bind_inv_Ok in H as ([] & w4 & _ & H).
  - apply bind_inv_Ok in H as (v & w5 & Hv & _).
    apply lift_inv_Ok in Hv as [Hv _]. by destruct (Hlacks v).
  - by apply IH in H.
Qed.

Lemma egyptian_contributors_app transport py_repr tl : ∀ pre answers w,
  Forall2 (located transport py_repr) pre answers →
  Forall2 (λ cont a, a.2 = true → ∃ v, getitem cont "repo_html_url" = Ok v) pre answers →
  ∃ w1, requests w1 = requests w ++ (profile_request py_repr <$> answers.*1)
        ∧ fs w1 = fs w
        ∧ egyptian_contributors transport py_repr (pre ++ tl) w
          = (more ← egyptian_contributors transport py_repr tl;
             mret ((filter (λ a, a.2 = true) answers).*1 ++ more)) w1.
Proof.
  induction pre as [|cont pre IH]; intros answers w Hloc Hkey.
  { apply Forall2_nil_inv_l in Hloc as ->. exists w. rewrite app_nil_r.
    split; [done|]. split; [done|]. cbn [app filter list_filter fmap list_fmap].
    unfold mbind, M_bind. by destruct (egyptian_contributors _ _ tl w) as [[]]. }
  apply Forall2_cons_inv_l in Hloc as ([login egy] & answers' & Hc & Hloc & ->).
  apply Forall2_cons_1 in Hkey as [Hk Hkey].
  destruct Hc as (Hlogin & prof & loc & Hans & Hl & Hegy). cbn [fst snd] in *.
  destruct (Hans (requests w)) as [H200 Hbody]. unfold profile_request in H200, Hbody.
  cbn [app egyptian_contributors].
  rewrite (bind_lift_Ok _ _ _ _ Hlogin).
  rewrite (bind_Ok _ _ _ _ _ (get_200 _ _ _ _ _ H200 Hbody)).
  rewrite (bind_lift_Ok _ _ _ _ Hl), (bind_lift_Ok _ _ _ _ Hegy).
  destruct egy.
  - destruct (Hk eq_refl) as [v Hv].
    rewrite (bind_lift_Ok _ _ _ _ Hv), (bind_Ok _ _ _ _ _ (logger_run _ _ _)).
    match goal with |- context [(_ ≫= _) ?w2] =>
      destruct (IH answers' w2 Hloc Hkey) as (w1 & Hreq & Hfs & Hrun) end.
    exists w1. split; [|split; [done|]].
    { rewrite Hreq, !fmap_cons. cbn [requests sent fst]. by rewrite <- app_assoc. }
    rewrite filter_cons_True by done.
    unfold mbind, M_bind at 1. rewrite Hrun.
    unfold mbind, M_bind. by destruct (egyptian_contributors _ _ tl w1) as [[]].
  - match goal with |- context [egyptian_contributors _ _ _ ?w2] =>
      destruct (IH answers' w2 Hloc Hkey) as (w1 & Hreq & Hfs & Hrun) end.
    exists w1. split; [|split; [done|]].
    { rewrite Hreq, !fmap_cons. cbn [requests sent fst]. by rewrite <- app_assoc. }
    rewrite filter_cons_False by (cbn; congruence). done.
Qed.

Section filter.
Variable transport : list request → request → Response.
Variable py_repr : json → string.

(** X11: the filter answers with the logins of the contributors whose profile
    location names Egypt, in the order of the contributors listing, after one
    request for the listing and one request per contributor, provided each
    contributor found carries a [repo_html_url]. *)
Theorem filter_per_cont_loc_finds row u conts answers (w : World) :
  repo_api_url row = Ok u →
  (∀ past, status_code (transport past (Request (u +:+ "/contributors") None)) = 200
           ∧ body (transport past (Request (u +:+ "/contributors") None))
             = Some (JArr conts)) →
  conts ≠ [] →
  Forall2 (located transport py_repr) conts answers →
  Forall2 (λ cont a, a.2 = true → ∃ v, getitem cont "repo_html_url" = Ok v) conts answers →
  ∃ w', filter_per_cont_loc transport py_repr row w
        = (Ok (JArr (filter (λ a, a.2 = true) answers).*1), w')
        ∧ requests w'
          = requests w ++ Request (u +:+ "/contributors") None
                          :: (profile_request py_repr <$> answers.*1).
Proof.
  intros Hu Hans Hne Hloc Hkey. unfold filter_per_cont_loc.
  rewrite (bind_lift_Ok _ _ _ _ Hu).
  destruct (Hans (requests w)) as [H200 Hbody].
  rewrite (bind_Ok _ _ _ _ _ (get_200 _ _ _ _ _ H200 Hbody)).
  assert (truthy (JArr conts) = true) as -> by (by destruct conts).
  rewrite (bind_lift_Ok (Py.iter (JArr conts)) _ _ conts eq_refl).
  destruct (egyptian_contributors_app transport py_repr [] conts answers
              (sent (Request (u +:+ "/contributors") None) w) Hloc Hkey)
    as (w1 & Hreq & _ & Hrun).
  rewrite app_nil_r in Hrun. unfold mbind, M_bind at 1. rewrite Hrun.
  exists w1. split.
  - cbn [egyptian_contributors]. unfold mbind, M_bind, mret, M_ret.
    by rewrite app_nil_r.
  - rewrite Hreq. cbn [requests sent]. by rewrite <- app_assoc.
Qed.


(** X13: the filter returns a non-empty list only if a contributor item
    carries a [repo_html_url]: when no item of the listing does, whatever the
    API answers, the result is None or the empty list (a contributor found in
    Egypt raises instead). *)
Theorem filter_per_cont_loc_needs_repo_url row (w : World) v w' :
  (∀ past req conts, body (transport past req) = Some (JArr conts) →
                     Forall (lacks "repo_html_url") conts) →
  filter_per_cont_loc transport py_repr row w = (Ok v, w') →
  v = JNull ∨ v = JArr [].
Proof.
  intros Hlacks H. unfold filter_per_cont_loc in H.
  apply bind_inv_Ok in H as (u & w1 & _ & H).
  apply bind_inv_Ok in H as (contributors & w2 & Hget & H).
  destruct (truthy contributors) eqn:Ht; [|injection H as <- _; by left].
  apply bind_inv_Ok in H as (conts & w3 & Hiter & H).
  apply bind_inv_Ok in H as (found & w4 & Hrun & H).
  injection H as <- _. right. f_equal.
  apply lift_inv_Ok in Hiter as [Hiter ->].
  apply get_Ok_truthy in Hget as [_ Hbody]; [|done].
  apply (egyptian_contributors_lacking transport py_repr conts) in Hrun; [done|].
  destruct contributors as [| | | s|l|m]; try discriminate; injection Hiter as <-.
  - apply Forall_fmap, Forall_forall. by intros c _ v.
  - by apply Hlacks in Hbody.
  - apply Forall_fmap, Forall_forall. by intros c _ v.
Qed.


End filter.

Lemma filter_per_cont_loc_finds_witness :
  ∃ w', filter_per_cont_loc
          (Sim.table_api
             [("https://api.github.com/repos/octo/demo/contributors",
               JArr [tagged_contributor "octo"; contributor "mona"; tagged_contributor "hubot"]);
              ("https://api.github.com/users/octo", profile (JStr "Cairo, EGYPT"));
              ("https://api.github.com/users/mona", profile JNull);
              ("https://api.github.com/users/hubot", profile (JStr "Alexandria, Egypt"))])
          Sim.no_repr Inputs.candidate Sim.empty_world
        = (Ok (JArr (filter (λ a, a.2 = true)
                       [(JStr "octo", true); (JStr "mona", false); (JStr "hubot", true)]).*1), w')
        ∧ requests w'
          = requests Sim.empty_world
            ++ Request ("https://api.github.com/repos/octo/demo" +:+ "/contributors") None
               :: (profile_request Sim.no_repr
                     <$> [(JStr "octo", true); (JStr "mona", false); (JStr "hubot", true)].*1).
Proof.
  apply (filter_per_cont_loc_finds _ Sim.no_repr Inputs.candidate
           "https://api.github.com/repos/octo/demo"
           [tagged_contributor "octo"; contributor "mona"; tagged_contributor "hubot"]).
  - reflexivity.
  - intros past. split; reflexivity.
  - discriminate.
  - constructor; [|constructor; [|constructor; [|constructor]]].
    + split; [reflexivity|].
      exists (profile (JStr "Cairo, EGYPT")), (JStr "Cairo, EGYPT").
      split; [intros past; split; reflexivity|]. split; reflexivity.
    + split; [reflexivity|]. exists (profile JNull), JNull.
      split; [intros past; split; reflexivity|]. split; reflexivity.
    + split; [reflexivity|].
      exists (profile (JStr "Alexandria, Egypt")), (JStr "Alexandria, Egypt").
      split; [intros past; split; reflexivity|]. split; reflexivity.
  - constructor; [|constructor; [|constructor; [|constructor]]].
    + intros _. by eexists.
    + discriminate.
    + intros _. by eexists.
Defined.


Lemma filter_per_cont_loc_needs_repo_url_witness :
  JArr [] = JNull ∨ JArr [] = JArr [].
Proof.
  apply (filter_per_cont_loc_needs_repo_url
           (Sim.table_api
              [("https://api.github.com/repos/octo/demo/contributors",
                JArr [contributor "mona"]);
               ("https://api.github.com/users/mona", profile (JStr "Berlin"))])
           Sim.no_repr Inputs.candidate Sim.empty_world (JArr [])
           (sent (profile_request Sim.no_repr (JStr "mona"))
              (sent (Request "https://api.github.com/repos/octo/demo/contributors" None)
                 Sim.empty_world))).
  - intros past req conts Hbody. unfold Sim.table_api in Hbody.
    destruct (_ !! url req) as [payload|] eqn:Hl; [|discriminate].
    cbn [body Sim.ok_response] in Hbody. injection Hbody as ->.
    apply elem_of_list_to_map_2 in Hl.
    apply elem_of_cons in Hl as [Hl|Hl].
    { injection Hl as _ ->. constructor; [by intros v|constructor]. }
    apply elem_of_cons in Hl as [Hl|Hl]; [discriminate|].
    by apply elem_of_nil in Hl.
  - reflexivity.
Defined.


(** ** The extractor's counts *)

Lemma count_where_how_many test pure data :
  Forall (λ x, test x = Ok (pure x)) data →
  RepoExtractor.count_where test data = Ok (how_many pure data).
Proof.
  unfold how_many. induction 1 as [|x data Hx _ IH]; [done|].
  cbn [RepoExtractor.count_where]. rewrite Hx, IH. cbn [mbind outcome_bind].
  destruct (pure x) eqn:Hp.
  - rewrite filter_cons_True by done. cbn [length]. f_equal. lia.
  - rewrite filter_cons_False by congruence. done.
Qed.

Lemma state_is_in_state s items :
  Forall (λ x, ∃ st, getitem x "state" = Ok st) items →
  Forall (λ x, RepoExtractor.state_is s x = Ok (in_state s x)) items.
Proof.
  intros H. eapply Forall_impl; [exact H|].
  intros x [st Hst]. unfold RepoExtractor.state_is, in_state.
  by rewrite Hst.
Qed.

Lemma how_many_exclusive p q items :
  (∀ x, p x = true → q x = true → False) →
  0 ≤ how_many p items ∧ 0 ≤ how_many q items
  ∧ how_many p items + how_many q items ≤ Z.of_nat (length items).
Proof.
  intros Hpq. unfold how_many. induction items as [|x items IH]; [done|].
  destruct (p x) eqn:Hp, (q x) eqn:Hq; [by destruct (Hpq x)|..].
  - rewrite filter_cons_True, (filter_cons_False (λ x, q x = true)) by congruence.
    cbn [length]. lia.
  - rewrite filter_cons_False, (filter_cons_True (λ x, q x = true)) by congruence.
    cbn [length]. lia.
  - rewrite filter_cons_False, (filter_cons_False (λ x, q x = true)) by congruence.
    cbn [length]. lia.
Qed.

Lemma how_many_partition p q items :
  (∀ x, p x = true → q x = true → False) →
  Forall (λ x, p x = true ∨ q x = true) items →
  how_many p items + how_many q items = Z.of_nat (length items).
Proof.
  intros Hpq. unfold how_many. induction 1 as [|x items Hx _ IH]; [done|].
  destruct (p x) eqn:Hp, (q x) eqn:Hq; [by destruct (Hpq x)|..|by destruct Hx].
  - rewrite filter_cons_True, (filter_cons_False (λ x, q x = true)) by congruence.
    cbn [length]. lia.
  - rewrite filter_cons_False, (filter_cons_True (λ x, q x = true)) by congruence.
    cbn [length]. lia.
Qed.

Lemma open_not_closed x : in_state "open" x = true → in_state "closed" x = true → False.
Proof.
  unfold in_state. destruct (getitem x "state") as [[]| |]; try done. cbn [eq_str].
  intros ->%String.eqb_eq. done.
Qed.

Section counts.
Variable transport : list request → request → Response.
Variable self : RepoExtractor.extractor.

(** X15: of a non-empty issues listing whose items carry a [state], the issue
    counts are the number of items in state open and the number in state
    closed; they never add up to more than the listing has items, and to
    exactly that many when every item is open or closed. *)
Theorem issues_count_by_state issues (w : World) :
  status_code (transport (requests w)
                 (Request (RepoExtractor.base_url self +:+ "/issues") RepoExtractor.state_all))
  = 200 →
  body (transport (requests w)
          (Request (RepoExtractor.base_url self +:+ "/issues") RepoExtractor.state_all))
  = Some (JArr issues) →
  issues ≠ [] →
  Forall (λ x, ∃ st, getitem x "state" = Ok st) issues →
  ∃ w', RepoExtractor._get_issues_count transport self w
        = (Ok (JObj (<["open" := JNum (how_many (in_state "open") issues)]>
                    (<["closed" := JNum (how_many (in_state "closed") issues)]> ∅))), w')
        ∧ how_many (in_state "open") issues + how_many (in_state "closed") issues
          ≤ Z.of_nat (length issues)
        ∧ (Forall (λ x, in_state "open" x = true ∨ in_state "closed" x = true) issues →
           how_many (in_state "open") issues + how_many (in_state "closed") issues
           = Z.of_nat (length issues)).
Proof.
  intros H200 Hbody Hne Hstate. unfold RepoExtractor._get_issues_count.
  rewrite (bind_Ok _ _ _ _ _ (get_200 _ _ _ _ _ H200 Hbody)).
  assert (truthy (JArr issues) = true) as -> by (by destruct issues).
  rewrite (bind_lift_Ok (Py.iter (JArr issues)) _ _ issues eq_refl).
  rewrite (bind_lift_Ok _ _ _ _
             (count_where_how_many _ _ _ (state_is_in_state "open" _ Hstate))).
  rewrite (bind_lift_Ok _ _ _ _
             (count_where_how_many _ _ _ (state_is_in_state "closed" _ Hstate))).
  rewrite (bind_Ok _ _ _ _ _ (logger_run _ _ _)).
  eexists. split; [reflexivity|]. split.
  - apply how_many_exclusive, open_not_closed.
  - apply how_many_partition, open_not_closed.
Qed.

(** X16: of a non-empty pull request listing whose items carry [state] and
    [merged_at], the counts are the numbers of items open, closed and merged,
    the merged ones counted by [merged_at] alone, whatever their state; open
    and closed together, and merged alone, never exceed the number of items
    of the listing. *)
Theorem pull_requests_count_by_state pulls (w : World) :
  status_code (transport (requests w)
                 (Request (RepoExtractor.base_url self +:+ "/pulls") RepoExtractor.state_all))
  = 200 →
  body (transport (requests w)
          (Request (RepoExtractor.base_url self +:+ "/pulls") RepoExtractor.state_all))
  = Some (JArr pulls) →
  pulls ≠ [] →
  Forall (λ x, ∃ st, getitem x "state" = Ok st) pulls →
  Forall (λ x, ∃ m, getitem x "merged_at" = Ok m) pulls →
  ∃ w', RepoExtractor._get_pull_requests_count transport self w
        = (Ok (JObj (<["open" := JNum (how_many (in_state "open") pulls)]>
                    (<["closed" := JNum (how_many (in_state "closed") pulls)]>
                    (<["merged" := JNum (how_many is_merged pulls)]> ∅)))), w')
        ∧ how_many (in_state "open") pulls + how_many (in_state "closed") pulls
          ≤ Z.of_nat (length pulls)
        ∧ 0 ≤ how_many is_merged pulls ≤ Z.of_nat (length pulls).
Proof.
  intros H200 Hbody Hne Hstate Hmerged. unfold RepoExtractor._get_pull_requests_count.
  rewrite (bind_Ok _ _ _ _ _ (get_200 _ _ _ _ _ H200 Hbody)).
  assert (truthy (JArr pulls) = true) as -> by (by destruct pulls).
  rewrite (bind_lift_Ok (Py.iter (JArr pulls)) _ _ pulls eq_refl).
  rewrite (bind_lift_Ok _ _ _ _
             (count_where_how_many _ _ _ (state_is_in_state "open" _ Hstate))).
  rewrite (bind_lift_Ok _ _ _ _
             (count_where_how_many _ _ _ (state_is_in_state "closed" _ Hstate))).
  assert (Forall (λ x, (m ← getitem x "merged_at"; Ok (negb (is_none m)))
                       = Ok (is_merged x)) pulls) as Hm.
  { eapply Forall_impl; [exact Hmerged|]. intros x [m Hx]. unfold is_merged.
    by rewrite Hx. }
  rewrite (bind_lift_Ok _ _ _ _ (count_where_how_many _ _ _ Hm)).
  rewrite (bind_Ok _ _ _ _ _ (logger_run _ _ _)).
  eexists. split; [reflexivity|]. split.
  - apply how_many_exclusive, open_not_closed.
  - unfold how_many. split; [lia|]. apply inj_le, length_filter.
Qed.

End counts.

Lemma issues_count_by_state_witness :
  ∃ w', RepoExtractor._get_issues_count Inputs.demo_api Inputs.demo Sim.empty_world
        = (Ok (JObj (<["open" := JNum (how_many (in_state "open")
                                         [JObj {["state" := JStr "open"]};
                                          JObj {["state" := JStr "closed"]}])]>
                    (<["closed" := JNum (how_many (in_state "closed")
                                           [JObj {["state" := JStr "open"]};
                                            JObj {["state" := JStr "closed"]}])]> ∅))), w')
        ∧ how_many (in_state "open")
            [JObj {["state" := JStr "open"]}; JObj {["state" := JStr "closed"]}]
          + how_many (in_state "closed")
              [JObj {["state" := JStr "open"]}; JObj {["state" := JStr "closed"]}]
          ≤ Z.of_nat (length [JObj {["state" := JStr "open"]};
                              JObj {["state" := JStr "closed"]}])
        ∧ (Forall (λ x, in_state "open" x = true ∨ in_state "closed" x = true)
             [JObj {["state" := JStr "open"]}; JObj {["state" := JStr "closed"]}] →
           how_many (in_state "open")
             [JObj {["state" := JStr "open"]}; JObj {["state" := JStr "closed"]}]
           + how_many (in_state "closed")
               [JObj {["state" := JStr "open"]}; JObj {["state" := JStr "closed"]}]
           = Z.of_nat (length [JObj {["state" := JStr "open"]};
                               JObj {["state" := JStr "closed"]}])).
Proof.
  apply (issues_count_by_state Inputs.demo_api Inputs.demo).
  - reflexivity.
  - reflexivity.
  - discriminate.
  - constructor; [|constructor; [|constructor]]; by eexists.
Defined.

Lemma pull_requests_count_by_state_witness :
  ∃ w', RepoExtractor._get_pull_requests_count Inputs.demo_api Inputs.demo Sim.empty_world
        = (Ok (JObj (<["open" := JNum (how_many (in_state "open")
                        [JObj (<["state" := JStr "closed"]>
                                 {["merged_at" := JStr "2024-05-01"]})])]>
                    (<["closed" := JNum (how_many (in_state "closed")
                        [JObj (<["state" := JStr "closed"]>
                                 {["merged_at" := JStr "2024-05-01"]})])]>
                    (<["merged" := JNum (how_many is_merged
                        [JObj (<["state" := JStr "closed"]>
                                 {["merged_at" := JStr "2024-05-01"]})])]> ∅)))), w')
        ∧ how_many (in_state "open")
            [JObj (<["state" := JStr "closed"]> {["merged_at" := JStr "2024-05-01"]})]
          + how_many (in_state "closed")
              [JObj (<["state" := JStr "closed"]> {["merged_at" := JStr "2024-05-01"]})]
          ≤ Z.of_nat (length [JObj (<["state" := JStr "closed"]>
                                      {["merged_at" := JStr "2024-05-01"]})])
        ∧ 0 ≤ how_many is_merged
                [JObj (<["state" := JStr "closed"]> {["merged_at" := JStr "2024-05-01"]})]
            ≤ Z.of_nat (length [JObj (<["state" := JStr "closed"]>
                                        {["merged_at" := JStr "2024-05-01"]})]).
Proof.
  apply (pull_requests_count_by_state Inputs.demo_api Inputs.demo).
  - reflexivity.
  - reflexivity.
  - discriminate.
  - constructor; [|constructor]; by eexists.
  - constructor; [|constructor]; by eexists.
Defined.

(** ** The aggregator, when the repository is included *)

Section aggregator.
Variable transport : list request → request → Response.
Variable self : RepoExtractor.extractor.

#[local] Hint Resolve get_same_files logger_same_files : respects.

Lemma each_item_same_files recurse items :
  (∀ d, respects same_files (recurse d)) →
  respects same_files (RepoExtractor.each_item recurse items).
Proof.
  intros Hrec. induction items as [|item items IH]; cbn [RepoExtractor.each_item];
    respects_steps.
Qed.

Lemma fetch_recursive_same_files fuel : ∀ d,
  respects same_files (RepoExtractor._fetch_recursive transport self fuel d).
Proof.
  induction fuel as [|fuel IH]; intros d; cbn [RepoExtractor._fetch_recursive].
  { auto with respects. }
  respects_steps. by apply each_item_same_files.
Qed.

Lemma process_repo_same_files fuel :
  respects same_files (RepoExtractor.process_repo transport self fuel).
Proof.
  pose proof (fetch_recursive_same_files fuel).
  unfold RepoExtractor.process_repo, RepoExtractor._get_contributors_count,
    RepoExtractor._get_filenames, RepoExtractor._get_commits_count,
    RepoExtractor._get_issues_count, RepoExtractor._get_pull_requests_count,
    RepoExtractor._get_tags, RepoExtractor._get_dependencies.
  respects_steps.
Qed.

(** X17: whatever the API answers and however the call ends, [process_repo]
    leaves the files alone; when it returns, the row it returns carries a
    [contributor_count] and differs from the candidate row in nothing but the
    eight keys it fills in. *)
Theorem process_repo_frame fuel (w : World) :
  fs (RepoExtractor.process_repo transport self fuel w).2 = fs w
  ∧ ∀ r, (RepoExtractor.process_repo transport self fuel w).1 = Ok r →
         is_Some (r !! "contributor_count")
         ∧ ∀ k, k ∉ enrichment_keys → r !! k = RepoExtractor.row self !! k.
Proof.
  split; [apply process_repo_same_files|].
  intros r Hr.
  destruct (RepoExtractor.process_repo transport self fuel w) as [o w'] eqn:H.
  cbn [fst] in Hr. subst o. unfold RepoExtractor.process_repo in H.
  apply bind_inv_Ok in H as (count & w1 & _ & H).
  apply bind_inv_Ok in H as (go & w2 & _ & H).
  assert (∀ k, k ∉ enrichment_keys → k ≠ "contributor_count") as Hcount.
  { intros k Hk ->. apply Hk. unfold enrichment_keys. set_solver. }
  destruct go.
  - repeat (apply bind_inv_Ok in H as (? & ? & _ & H)).
    injection H as <- _. split.
    + rewrite !lookup_insert_ne by done. by rewrite lookup_insert_eq.
    + intros k Hk. unfold enrichment_keys in Hk.
      rewrite !not_elem_of_cons in Hk. destruct Hk as (?&?&?&?&?&?&?&?&_).
      rewrite !lookup_insert_ne by congruence. done.
  - apply bind_inv_Ok in H as (? & ? & _ & H). injection H as <- _. split.
    + by rewrite lookup_insert_eq.
    + intros k Hk. rewrite lookup_insert_ne; [done|]. intros <-. by apply (Hcount _ Hk).
Qed.










End aggregator.


Lemma process_repo_frame_witness :
  is_Some (bare_row (RepoExtractor.row Inputs.demo) 2 !! "contributor_count")
  ∧ ∀ k, k ∉ enrichment_keys →
         bare_row (RepoExtractor.row Inputs.demo) 2 !! k = RepoExtractor.row Inputs.demo !! k.
Proof.
  apply (proj2 (process_repo_frame
                  (Sim.table_api
                     [("https://api.github.com/repos/octo/demo/contributors",
                       JArr [contributor "octo"; contributor "mona"])])
                  Inputs.demo 1 Sim.empty_world)).
  reflexivity.
Defined.
